(** * Department service: hierarchy check, lifecycle operations, listing

    A shallow embedding of the department service module
    ([checkCircularReference], [getDepartments], [createDepartment],
    [updateDepartment], [deleteDepartment] and the three zod schemas they
    parse their input with), followed by the properties proved about it.
    The HTTP route module repeats the same logic behind a query schema of
    its own; the two properties on which that schema differs are embedded
    too.

    Modelling conventions.
    - A JavaScript string is a [string]: a sequence of code units, each in
      the range U+0000..U+00FF.  [String.length] is the [.length] of the
      source.
    - A property of a payload that may be missing, [null] or a value is a
      [field]: [Undefined], [Null] or [Val v].
    - The numbers [page], [limit], [skip], [total] are integers ([Z]); the
      quotient [total / limit] is taken in [Q] before [Math.ceil].
    - The database client is an external collaborator.  Every call on it is
      a step of the monad [M]: it is appended to the [log] of the world, it
      consumes one flag of the [faults] schedule (a [true] flag makes the
      call reject), and it reads or writes the tables in [db].
    - [console.error] calls and the [include] expansions of related rows in
      returned records are left out. *)

From Stdlib Require Import ZArith QArith Qround Lia.
From Stdlib Require Import Strings.Ascii Strings.String DecimalString.
From stdpp Require Import base decidable option list strings gmap.

#[local] Set Warnings "-clear-no-such-hyp".

Close Scope Q_scope.
Open Scope string_scope.
Open Scope list_scope.

(* ===================================================================== *)
(** ** JavaScript values *)
(* ===================================================================== *)

Inductive field (A : Type) : Type :=
| Undefined
| Null
| Val (a : A).
Arguments Undefined {A}.
Arguments Null {A}.
Arguments Val {A} a.

(** [if (x)] on a string-valued property: [undefined], [null] and the empty
    string are falsy. *)
Definition truthy (x : field string) : bool :=
  match x with
  | Val s => negb (String.eqb s "")
  | _ => false
  end.

(** [x !== undefined]. *)
Definition defined {A} (x : field A) : bool :=
  match x with
  | Undefined => false
  | _ => true
  end.

(** White space removed by [String.prototype.trim], among the code units
    below 256: TAB, LF, VT, FF, CR, SP and NBSP. *)
Definition is_space (c : ascii) : bool :=
  let n := nat_of_ascii c in
  (Nat.leb 9 n && Nat.leb n 13) || Nat.eqb n 32 || Nat.eqb n 160.

Fixpoint trim_start (s : string) : string :=
  match s with
  | String c s' => if is_space c then trim_start s' else s
  | EmptyString => EmptyString
  end.

(** Drops the trailing white space: a space is kept exactly when something
    that is kept follows it. *)
Fixpoint trim_end (s : string) : string :=
  match s with
  | String c s' =>
      let t := trim_end s' in
      if is_space c && String.eqb t "" then "" else String c t
  | EmptyString => EmptyString
  end.

Definition trim (s : string) : string := trim_end (trim_start s).

Definition lower_char (c : ascii) : ascii :=
  let n := nat_of_ascii c in
  if Nat.leb 65 n && Nat.leb n 90 then ascii_of_nat (n + 32) else c.

Fixpoint lower (s : string) : string :=
  match s with
  | String c s' => String (lower_char c) (lower s')
  | EmptyString => EmptyString
  end.

(** [{ equals: b, mode: 'insensitive' }] applied to a column value [a]. *)
Definition equals_insensitive (a b : string) : bool :=
  String.eqb (lower a) (lower b).

Fixpoint is_infix (needle hay : string) : bool :=
  String.prefix needle hay ||
  match hay with
  | String _ hay' => is_infix needle hay'
  | EmptyString => false
  end.

(** [{ contains: b, mode: 'insensitive' }] applied to a column value [a]. *)
Definition contains_insensitive (a b : string) : bool :=
  is_infix (lower b) (lower a).

(** Decimal rendering of a length inside a template literal. *)
Definition show_nat (n : nat) : string :=
  NilEmpty.string_of_uint (Nat.to_uint n).

(* ===================================================================== *)
(** ** Tables *)
(* ===================================================================== *)

Record Department : Type := mkDepartment {
  d_id : string;
  d_name : string;
  d_description : option string;
  d_isActive : bool;
  d_managerId : option string;
  d_parentId : option string
}.

Record Employee : Type := mkEmployee {
  e_id : string;
  e_departmentId : option string;
  e_employmentStatus : string
}.

Record Position : Type := mkPosition {
  p_id : string;
  p_departmentId : option string;
  p_isActive : bool
}.

Record Db : Type := mkDb {
  departments : list Department;
  employees : list Employee;
  positions : list Position
}.

Definition is_some_str (o : option string) (s : string) : bool :=
  match o with
  | Some x => String.eqb x s
  | None => false
  end.

Definition find_department (d : Db) (i : string) : option Department :=
  List.find (fun r => String.eqb (d_id r) i) (departments d).

(** The [parentId] column of row [i]: [None] when there is no such row. *)
Definition parent_of (d : Db) (i : string) : option (option string) :=
  option_map d_parentId (find_department d i).

(** The back references used by [include]: rows pointing at department [i]. *)
Definition active_employees (d : Db) (i : string) : list Employee :=
  List.filter (fun e => is_some_str (e_departmentId e) i
                        && String.eqb (e_employmentStatus e) "ACTIVE")
              (employees d).

Definition active_children (d : Db) (i : string) : list Department :=
  List.filter (fun c => is_some_str (d_parentId c) i && d_isActive c)
              (departments d).

Definition active_positions (d : Db) (i : string) : list Position :=
  List.filter (fun p => is_some_str (p_departmentId p) i && p_isActive p)
              (positions d).

(* ===================================================================== *)
(** ** Arguments of the client calls *)
(* ===================================================================== *)

Inductive SortKey : Type := by_name | by_createdAt | by_updatedAt.
Inductive SortOrder : Type := asc | desc.

Record Where : Type := mkWhere {
  where_isActive : option bool;
  where_parentId : option string;
  where_search : option string
}.

(** The [data] of [department.create]. *)
Record CreateData : Type := mkCreateData {
  new_name : string;
  new_managerId : field string;
  new_parentId : field string;
  new_description : option string;
  new_isActive : bool
}.

(** The [data] of [department.update]: [None] is a key that is not in the
    object, [Some None] is a key set to [null]. *)
Record UpdateData : Type := mkUpdateData {
  set_name : option string;
  set_managerId : option (option string);
  set_parentId : option (option string);
  set_isActive : option bool;
  set_description : option (option string)
}.

Inductive Query : Type :=
| QFindUnique (i : string)
| QFindUniqueParentId (i : string)
| QFindUniqueDependents (i : string)
| QFindFirstByName (n : string) (notId : option string)
| QFindFirstActive (i : string)
| QEmployeeFindFirstActive (i : string)
| QFindMany (w : Where) (skip take : Z) (k : SortKey) (o : SortOrder)
| QCount (w : Where)
| QCreate (data : CreateData)
| QUpdate (i : string) (data : UpdateData).

(* ===================================================================== *)
(** ** Errors and the monad of service calls *)
(* ===================================================================== *)

Inductive ZodIssue : Type :=
| invalid_type (path : string)
| invalid_enum_value (path : string)
| issue (path message : string).

Inductive Error : Type :=
| UnauthorizedError (message : string)
| NotFoundError (message : string)
| ValidationError (message : string)
| ZodError (issues : list ZodIssue)
| ClientError
| PlainError (message : string).

Inductive Outcome (A : Type) : Type :=
| Returned (a : A)
| Thrown (e : Error).
Arguments Returned {A} a.
Arguments Thrown {A} e.

(** What a run reads and writes: the tables, the schedule of client
    failures, the identifiers the store will hand out to new rows, the way
    the store orders rows, and the calls made so far. *)
Record World : Type := mkWorld {
  db : Db;
  faults : list bool;
  fresh_ids : list string;
  order_rows : SortKey -> SortOrder -> list Department -> list Department;
  log : list Query
}.

Definition M (A : Type) : Type := World -> Outcome A * World.

Definition ret {A} (a : A) : M A := fun w => (Returned a, w).

Definition throw {A} (e : Error) : M A := fun w => (Thrown e, w).

Definition bind {A B} (m : M A) (k : A -> M B) : M B :=
  fun w =>
    match m w with
    | (Returned a, w') => k a w'
    | (Thrown e, w') => (Thrown e, w')
    end.

Definition try_catch {A} (body : M A) (handler : Error -> M A) : M A :=
  fun w =>
    match body w with
    | (Returned a, w') => (Returned a, w')
    | (Thrown e, w') => handler e w'
    end.

Declare Scope service_scope.
Delimit Scope service_scope with service.
Notation "x <- m ;; k" := (bind m (fun x => k))
  (at level 100, m at level 99, k at level 200, right associativity)
  : service_scope.
Notation "m ;; k" := (bind m (fun _ => k))
  (at level 100, k at level 200, right associativity) : service_scope.
Open Scope service_scope.

Definition result_of {A} (r : Outcome A * World) : Outcome A := fst r.
Definition world_of {A} (r : Outcome A * World) : World := snd r.

(** The calls a run adds to the log of the world it starts from. *)
Definition issued {A} (m : M A) (w : World) : list Query :=
  drop (length (log w)) (log (world_of (m w))).

(* ===================================================================== *)
(** ** The database client *)
(* ===================================================================== *)

(** The world after a call has been handed to the client: the call is in
    the log and the first flag of the failure schedule is used up. *)
Definition tick (q : Query) (w : World) : World :=
  mkWorld (db w) (tail (faults w)) (fresh_ids w) (order_rows w) (log w ++ [q]).

(** One call on the client: it is logged and takes the next flag of the
    failure schedule; a [true] flag rejects the call before it touches the
    tables. *)
Definition client_call {A} (q : Query) (run : World -> Outcome A * World)
  : M A :=
  fun w =>
    match faults w with
    | true :: _ => (Thrown ClientError, tick q w)
    | _ => run (tick q w)
    end.

Definition client_read {A} (q : Query) (f : Db -> A) : M A :=
  client_call q (fun w => (Returned (f (db w)), w)).

(** [department.findUnique({ where: { id } })]. *)
Definition department_findUnique (i : string) : M (option Department) :=
  client_read (QFindUnique i) (fun d => find_department d i).

(** [department.findUnique({ where: { id }, select: { parentId: true } })]:
    [None] is JavaScript's [null] (no such row), [Some p] is the object
    [{ parentId: p }]. *)
Definition department_findUnique_parentId (i : string)
  : M (option (option string)) :=
  client_read (QFindUniqueParentId i) (fun d => parent_of d i).

Record Dependents : Type := mkDependents {
  dep_row : Department;
  dep_employees : list Employee;
  dep_children : list Department;
  dep_positions : list Position
}.

(** [department.findUnique] with the active employees, children and
    positions included. *)
Definition department_findUnique_dependents (i : string)
  : M (option Dependents) :=
  client_read (QFindUniqueDependents i)
    (fun d => option_map
                (fun r => mkDependents r (active_employees d i)
                                       (active_children d i)
                                       (active_positions d i))
                (find_department d i)).

Definition name_filter (n : string) (notId : option string) (r : Department)
  : bool :=
  equals_insensitive (d_name r) n &&
  match notId with
  | Some i => negb (String.eqb (d_id r) i)
  | None => true
  end.

(** [department.findFirst({ where: { name: { equals, mode: 'insensitive' },
    NOT: { id } } })]; [notId = None] when there is no [NOT]. *)
Definition department_findFirst_name (n : string) (notId : option string)
  : M (option Department) :=
  client_read (QFindFirstByName n notId)
              (fun d => List.find (name_filter n notId) (departments d)).

Definition active_department_filter (i : string) (r : Department) : bool :=
  String.eqb (d_id r) i && d_isActive r.

(** [department.findFirst({ where: { id, isActive: true } })]. *)
Definition department_findFirst_active (i : string) : M (option Department) :=
  client_read (QFindFirstActive i)
    (fun d => List.find (active_department_filter i) (departments d)).

Definition active_employee_filter (i : string) (e : Employee) : bool :=
  String.eqb (e_id e) i && String.eqb (e_employmentStatus e) "ACTIVE".

(** [employee.findFirst({ where: { id, employmentStatus: 'ACTIVE' } })]. *)
Definition employee_findFirst_active (i : string) : M (option Employee) :=
  client_read (QEmployeeFindFirstActive i)
    (fun d => List.find (active_employee_filter i) (employees d)).

Definition matches (w : Where) (r : Department) : bool :=
  match where_isActive w with
  | Some b => Bool.eqb (d_isActive r) b
  | None => true
  end &&
  match where_parentId w with
  | Some p => is_some_str (d_parentId r) p
  | None => true
  end &&
  match where_search w with
  | Some s =>
      contains_insensitive (d_name r) s ||
      match d_description r with
      | Some t => contains_insensitive t s
      | None => false
      end
  | None => true
  end.

(** [department.findMany({ where, skip, take, orderBy })]. *)
Definition department_findMany (wh : Where) (skip take : Z) (k : SortKey)
  (o : SortOrder) : M (list Department) :=
  client_call (QFindMany wh skip take k o)
    (fun w =>
       (Returned
          (firstn (Z.to_nat take)
             (skipn (Z.to_nat skip)
                (order_rows w k o (List.filter (matches wh)
                                               (departments (db w)))))),
        w)).

(** [department.count({ where })]. *)
Definition department_count (wh : Where) : M Z :=
  client_read (QCount wh)
    (fun d => Z.of_nat (length (List.filter (matches wh) (departments d)))).

Definition nullable (x : field string) : option string :=
  match x with
  | Val s => Some s
  | _ => None
  end.

(** [department.create({ data })]: the store names the new row with the next
    fresh identifier and rejects the call when it has none or when the
    identifier is taken (primary key). *)
Definition department_create (data : CreateData) : M Department :=
  client_call (QCreate data)
    (fun w =>
       match fresh_ids w with
       | [] => (Thrown ClientError, w)
       | i :: rest =>
           match find_department (db w) i with
           | Some _ => (Thrown ClientError, w)
           | None =>
               let row := mkDepartment i (new_name data)
                            (new_description data) (new_isActive data)
                            (nullable (new_managerId data))
                            (nullable (new_parentId data)) in
               (Returned row,
                mkWorld (mkDb (departments (db w) ++ [row])
                              (employees (db w)) (positions (db w)))
                        (faults w) rest (order_rows w) (log w))
           end
       end).

Definition or_keep {A} (new : option A) (old : A) : A :=
  match new with
  | Some a => a
  | None => old
  end.

Definition apply_update (data : UpdateData) (r : Department) : Department :=
  mkDepartment (d_id r)
               (or_keep (set_name data) (d_name r))
               (or_keep (set_description data) (d_description r))
               (or_keep (set_isActive data) (d_isActive r))
               (or_keep (set_managerId data) (d_managerId r))
               (or_keep (set_parentId data) (d_parentId r)).

Definition update_rows (i : string) (data : UpdateData)
  (rows : list Department) : list Department :=
  List.map (fun r => if String.eqb (d_id r) i then apply_update data r else r)
           rows.

(** [department.update({ where: { id }, data })]: rejects when no row has
    the identifier. *)
Definition department_update (i : string) (data : UpdateData) : M Department :=
  client_call (QUpdate i data)
    (fun w =>
       match find_department (db w) i with
       | None => (Thrown ClientError, w)
       | Some r =>
           (Returned (apply_update data r),
            mkWorld (mkDb (update_rows i data (departments (db w)))
                          (employees (db w)) (positions (db w)))
                    (faults w) (fresh_ids w) (order_rows w) (log w))
       end).

(** [Promise.all([a, b])]: both calls are issued, in order; the result
    rejects when one of them does. *)
Definition promise_all {A B} (a : M A) (b : M B) : M (A * B) :=
  fun w =>
    let (ra, w1) := a w in
    let (rb, w2) := b w1 in
    match ra, rb with
    | Returned x, Returned y => (Returned (x, y), w2)
    | Thrown e, _ => (Thrown e, w2)
    | _, Thrown e => (Thrown e, w2)
    end.

(* ===================================================================== *)
(** ** Validation schemas *)
(* ===================================================================== *)

Inductive Parsed (A : Type) : Type :=
| Valid (a : A)
| Invalid (issues : list ZodIssue).
Arguments Valid {A} a.
Arguments Invalid {A} issues.

Definition issues_of {A} (p : Parsed A) : list ZodIssue :=
  match p with
  | Valid _ => []
  | Invalid l => l
  end.

Definition is_hex (c : ascii) : bool :=
  let n := nat_of_ascii c in
  (Nat.leb 48 n && Nat.leb n 57) || (Nat.leb 65 n && Nat.leb n 70)
  || (Nat.leb 97 n && Nat.leb n 102).

Fixpoint hex_run (n : nat) (s : string) : option string :=
  match n, s with
  | O, _ => Some s
  | S n', String c s' => if is_hex c then hex_run n' s' else None
  | S _, EmptyString => None
  end.

(** Groups of hexadecimal digits of the given sizes, separated by dashes. *)
Fixpoint hex_groups (sizes : list nat) (s : string) : bool :=
  match sizes with
  | [] => false
  | n :: rest =>
      match hex_run n s, rest with
      | Some EmptyString, [] => true
      | Some (String "-"%char s'), _ :: _ => hex_groups rest s'
      | _, _ => false
      end
  end.

(** The format accepted by [z.string().uuid()]: hexadecimal groups of 8, 4,
    4, 4 and 12 digits separated by dashes. *)
Definition is_uuid (s : string) : bool := hex_groups [8; 4; 4; 4; 12]%nat s.

(** [z.string().min(1, ..).max(100, ..).transform(val => val.trim())]. *)
Definition name_schema (x : field string) : Parsed string :=
  match x with
  | Val s =>
      if Nat.ltb (String.length s) 1 then
        Invalid [issue "name" "Name is required"]
      else if Nat.ltb 100 (String.length s) then
        Invalid [issue "name" "Name must be less than 100 characters"]
      else Valid (trim s)
  | _ => Invalid [invalid_type "name"]
  end.

(** [z.string().uuid(message).nullable().optional()]. *)
Definition uuid_schema (path message : string) (x : field string)
  : Parsed (field string) :=
  match x with
  | Val s => if is_uuid s then Valid (Val s) else Invalid [issue path message]
  | Null => Valid Null
  | Undefined => Valid Undefined
  end.

(** [z.boolean().default(true)]. *)
Definition isActive_schema (x : field bool) : Parsed bool :=
  match x with
  | Val b => Valid b
  | Undefined => Valid true
  | Null => Invalid [invalid_type "isActive"]
  end.

(** [val?.trim() || null]. *)
Definition trim_or_null (x : field string) : option string :=
  match x with
  | Val s => if String.eqb (trim s) "" then None else Some (trim s)
  | _ => None
  end.

(** [z.string().max(500, ..).nullable().optional()
      .transform(val => val?.trim() || null)]. *)
Definition description_schema (x : field string) : Parsed (option string) :=
  match x with
  | Val s =>
      if Nat.ltb 500 (String.length s) then
        Invalid [issue "description"
                       "Description must be less than 500 characters"]
      else Valid (trim_or_null x)
  | _ => Valid (trim_or_null x)
  end.

(** The payload of create and update as the caller hands it over. *)
Record DepartmentInput : Type := mkDepartmentInput {
  in_name : field string;
  in_managerId : field string;
  in_parentId : field string;
  in_isActive : field bool;
  in_description : field string
}.

Record DepartmentData : Type := mkDepartmentData {
  v_name : string;
  v_managerId : field string;
  v_parentId : field string;
  v_isActive : bool;
  v_description : option string
}.

(** [departmentSchema.parse(data)]: every property is checked and the issues
    of all of them are reported together. *)
Definition departmentSchema (data : DepartmentInput) : Parsed DepartmentData :=
  let n := name_schema (in_name data) in
  let m := uuid_schema "managerId" "Invalid manager ID" (in_managerId data) in
  let p := uuid_schema "parentId" "Invalid parent department ID"
                       (in_parentId data) in
  let a := isActive_schema (in_isActive data) in
  let d := description_schema (in_description data) in
  match n, m, p, a, d with
  | Valid n', Valid m', Valid p', Valid a', Valid d' =>
      Valid (mkDepartmentData n' m' p' a' d')
  | _, _, _, _, _ =>
      Invalid (issues_of n ++ issues_of m ++ issues_of p ++ issues_of a
               ++ issues_of d)
  end.

(** What [.partial()] does to the schema of one property: a missing property
    is accepted as missing, and the schema of the property, with its
    default or its transform, is not run on it. *)
Definition optional {A B} (schema : field A -> Parsed B) (x : field A)
  : Parsed (option B) :=
  match x with
  | Undefined => Valid None
  | _ =>
      match schema x with
      | Valid b => Valid (Some b)
      | Invalid l => Invalid l
      end
  end.

Record DepartmentPatch : Type := mkDepartmentPatch {
  u_name : option string;
  u_managerId : field string;
  u_parentId : field string;
  u_isActive : option bool;
  u_description : option (option string)
}.

(** [updateDepartmentSchema = departmentSchema.partial()].  The two uuid
    properties are optional already, so their schema is unchanged. *)
Definition updateDepartmentSchema (data : DepartmentInput)
  : Parsed DepartmentPatch :=
  let n := optional name_schema (in_name data) in
  let m := uuid_schema "managerId" "Invalid manager ID" (in_managerId data) in
  let p := uuid_schema "parentId" "Invalid parent department ID"
                       (in_parentId data) in
  let a := optional isActive_schema (in_isActive data) in
  let d := optional description_schema (in_description data) in
  match n, m, p, a, d with
  | Valid n', Valid m', Valid p', Valid a', Valid d' =>
      Valid (mkDepartmentPatch n' m' p' a' d')
  | _, _, _, _, _ =>
      Invalid (issues_of n ++ issues_of m ++ issues_of p ++ issues_of a
               ++ issues_of d)
  end.

Record ListInput : Type := mkListInput {
  in_userRole : field string;
  in_page : field Z;
  in_limit : field Z;
  in_active : field bool;
  in_parent : field string;
  in_search : field string;
  in_sortBy : field string;
  in_sortOrder : field string
}.

Record ListParams : Type := mkListParams {
  l_userRole : string;
  l_page : Z;
  l_limit : Z;
  l_isActive : option bool;
  l_parentId : field string;
  l_search : option string;
  l_sortBy : SortKey;
  l_sortOrder : SortOrder
}.

(** [z.string()]. *)
Definition userRole_schema (x : field string) : Parsed string :=
  match x with
  | Val s => Valid s
  | _ => Invalid [invalid_type "userRole"]
  end.

(** [z.number().min(1, 'Page must be at least 1').default(1)]. *)
Definition page_schema (x : field Z) : Parsed Z :=
  match x with
  | Val n =>
      if (n <? 1)%Z then Invalid [issue "page" "Page must be at least 1"]
      else Valid n
  | Undefined => Valid 1%Z
  | Null => Invalid [invalid_type "page"]
  end.

(** [z.number().min(1, ..).max(100, ..).default(10)]. *)
Definition limit_schema (x : field Z) : Parsed Z :=
  match x with
  | Val n =>
      if (n <? 1)%Z then Invalid [issue "limit" "Limit must be at least 1"]
      else if (100 <? n)%Z then
        Invalid [issue "limit" "Limit cannot exceed 100"]
      else Valid n
  | Undefined => Valid 10%Z
  | Null => Invalid [invalid_type "limit"]
  end.

(** [z.boolean().optional()]. *)
Definition active_schema (x : field bool) : Parsed (option bool) :=
  match x with
  | Val b => Valid (Some b)
  | Undefined => Valid None
  | Null => Invalid [invalid_type "isActive"]
  end.

(** [z.string().min(1, 'Search term must not be empty').optional()]. *)
Definition search_schema (x : field string) : Parsed (option string) :=
  match x with
  | Val s =>
      if Nat.ltb (String.length s) 1 then
        Invalid [issue "search" "Search term must not be empty"]
      else Valid (Some s)
  | Undefined => Valid None
  | Null => Invalid [invalid_type "search"]
  end.

(** [z.enum(['name', 'createdAt', 'updatedAt']).default('name')]. *)
Definition sortBy_schema (x : field string) : Parsed SortKey :=
  match x with
  | Val s =>
      if String.eqb s "name" then Valid by_name
      else if String.eqb s "createdAt" then Valid by_createdAt
      else if String.eqb s "updatedAt" then Valid by_updatedAt
      else Invalid [invalid_enum_value "sortBy"]
  | Undefined => Valid by_name
  | Null => Invalid [invalid_type "sortBy"]
  end.

(** [z.enum(['asc', 'desc']).default('asc')]. *)
Definition sortOrder_schema (x : field string) : Parsed SortOrder :=
  match x with
  | Val s =>
      if String.eqb s "asc" then Valid asc
      else if String.eqb s "desc" then Valid desc
      else Invalid [invalid_enum_value "sortOrder"]
  | Undefined => Valid asc
  | Null => Invalid [invalid_type "sortOrder"]
  end.

Definition getDepartmentsSchema (params : ListInput) : Parsed ListParams :=
  let r := userRole_schema (in_userRole params) in
  let pg := page_schema (in_page params) in
  let lm := limit_schema (in_limit params) in
  let a := active_schema (in_active params) in
  let p := uuid_schema "parentId" "Invalid parent department ID"
                       (in_parent params) in
  let s := search_schema (in_search params) in
  let k := sortBy_schema (in_sortBy params) in
  let o := sortOrder_schema (in_sortOrder params) in
  match r, pg, lm, a, p, s, k, o with
  | Valid r', Valid pg', Valid lm', Valid a', Valid p', Valid s', Valid k',
    Valid o' => Valid (mkListParams r' pg' lm' a' p' s' k' o')
  | _, _, _, _, _, _, _, _ =>
      Invalid (issues_of r ++ issues_of pg ++ issues_of lm ++ issues_of a
               ++ issues_of p ++ issues_of s ++ issues_of k ++ issues_of o)
  end.

(** [schema.parse(x)]: the value, or a thrown [ZodError]. *)
Definition parse {A B} (schema : A -> Parsed B) (x : A) : M B :=
  match schema x with
  | Valid b => ret b
  | Invalid l => throw (ZodError l)
  end.

(* ===================================================================== *)
(** ** The query schema of the HTTP route *)
(* ===================================================================== *)

(** The route [GET /] validates the query string with a schema of its own,
    [listDepartmentsSchema].  It differs from [getDepartmentsSchema] on
    [limit], which it clamps before the range check, and on [sortBy] and
    [sortOrder], for which it catches the failure of the enumeration. *)

Definition digit_of (c : ascii) : option Z :=
  let n := nat_of_ascii c in
  if Nat.leb 48 n && Nat.leb n 57 then Some (Z.of_nat (n - 48)) else None.

(** The value of the longest prefix of decimal digits; [acc] is [None] until
    a digit has been read. *)
Fixpoint read_digits (s : string) (acc : option Z) : option Z :=
  match s with
  | String c s' =>
      match digit_of c with
      | Some d => read_digits s' (Some (10 * default 0%Z acc + d)%Z)
      | None => acc
      end
  | EmptyString => acc
  end.

(** [parseInt(val, 10)]: leading white space, a sign, digits; [None] is
    [NaN]. *)
Definition parseInt10 (val : string) : option Z :=
  match trim_start val with
  | String "-"%char rest => option_map Z.opp (read_digits rest None)
  | String "+"%char rest => read_digits rest None
  | s => read_digits s None
  end.

(** The function given to [z.preprocess] for [limit]. *)
Definition route_limit_preprocess (val : field string) : Z :=
  match val with
  | Val s =>
      if negb (String.eqb (trim s) "") then
        match parseInt10 s with
        | None => 10%Z
        | Some num => Z.min (Z.max num 1) 100
        end
      else 10%Z
  | _ => 10%Z
  end.

(** [z.preprocess(.., z.number().min(1, ..).max(100, ..).default(10))]. *)
Definition route_limit_schema (val : field string) : Parsed Z :=
  limit_schema (Val (route_limit_preprocess val)).

(** [z.enum(['name', 'createdAt', 'updatedAt']).default('name')
      .catch('name')]. *)
Definition route_sortBy_schema (x : field string) : Parsed SortKey :=
  match sortBy_schema x with
  | Valid k => Valid k
  | Invalid _ => Valid by_name
  end.

(** [z.enum(['asc', 'desc']).default('asc').catch('asc')]. *)
Definition route_sortOrder_schema (x : field string) : Parsed SortOrder :=
  match sortOrder_schema x with
  | Valid o => Valid o
  | Invalid _ => Valid asc
  end.

(* ===================================================================== *)
(** ** The service *)
(* ===================================================================== *)

Definition checkAuthorization (userRole : string) (requiredRoles : list string)
  : M unit :=
  if negb (existsb (String.eqb userRole) requiredRoles) then
    throw (UnauthorizedError "Insufficient permissions")
  else ret tt.

Definition maxDepth : nat := 50.

(** How one turn of the [while] body ends: [break], or the end of the body
    with the new value of [currentParentId]. *)
Inductive Turn : Type :=
| Break
| Next (currentParentId : option string).

(** The [while] loop of [checkCircularReference].  [remaining] is
    [maxDepth - depth]: the loop stops when it is [0], and every turn that
    reaches [depth++] takes one off. *)
Fixpoint ancestor_walk (remaining : nat) (currentParentId : option string)
  (visitedIds : gset string) : M bool :=
  match remaining, currentParentId with
  | S remaining', Some current =>
      if String.eqb current "" then ret false
      else if bool_decide (current ∈ visitedIds) then ret true
      else
        turn <- try_catch
                  (parent <- department_findUnique_parentId current ;;
                   match parent with
                   | None => ret Break
                   | Some p => ret (Next p)
                   end)
                  (fun _ => ret Break) ;;
        match turn with
        | Break => ret false
        | Next p => ancestor_walk remaining' p (visitedIds ∪ {[current]})
        end
  | _, _ => ret false
  end.

Definition checkCircularReference (departmentId parentId : string) : M bool :=
  if String.eqb departmentId parentId then ret true
  else ancestor_walk maxDepth (Some parentId) {[departmentId]}.

Record Pagination : Type := mkPagination {
  pg_page : Z;
  pg_limit : Z;
  pg_total : Z;
  pg_pages : Z;
  pg_hasNext : bool;
  pg_hasPrev : bool
}.

Record DepartmentPage : Type := mkDepartmentPage {
  page_departments : list Department;
  page_pagination : Pagination
}.

(** [Math.ceil(a / b)] on integers: the quotient is a rational. *)
Definition Math_ceil_div (a b : Z) : Z := Qceiling (inject_Z a / inject_Z b)%Q.

Definition build_where (isActive : option bool) (parentId : field string)
  (search : option string) : Where :=
  mkWhere isActive
          (if truthy parentId then nullable parentId else None)
          (match search with
           | Some s => if String.eqb s "" then None else Some s
           | None => None
           end).

Definition getDepartments (params : ListInput) : M DepartmentPage :=
  validatedParams <- parse getDepartmentsSchema params ;;
  let page := l_page validatedParams in
  let limit := l_limit validatedParams in
  checkAuthorization (l_userRole validatedParams) ["ADMIN"; "HR"; "MANAGER"] ;;
  let skip := ((page - 1) * limit)%Z in
  let where_ := build_where (l_isActive validatedParams)
                            (l_parentId validatedParams)
                            (l_search validatedParams) in
  try_catch
    (found <- promise_all
                (department_findMany where_ skip limit
                                     (l_sortBy validatedParams)
                                     (l_sortOrder validatedParams))
                (department_count where_) ;;
     let (rows, total) := found in
     ret (mkDepartmentPage rows
            (mkPagination page limit total
                          (Math_ceil_div total limit)
                          (page <? Math_ceil_div total limit)%Z
                          (page >? 1)%Z)))
    (fun _ => throw (PlainError "Failed to fetch departments")).

(** "Validate manager exists and is active": the same block in create and
    in update. *)
Definition validate_manager (managerId : field string) : M unit :=
  if truthy managerId then
    manager <- employee_findFirst_active (default "" (nullable managerId)) ;;
    if manager is None then
      throw (ValidationError "Manager not found or not active")
    else ret tt
  else ret tt.

(** "Validate parent department exists and is active", in create. *)
Definition validate_parent (parentId : field string) : M unit :=
  if truthy parentId then
    parent <- department_findFirst_active (default "" (nullable parentId)) ;;
    if parent is None then
      throw (ValidationError "Parent department not found or not active")
    else ret tt
  else ret tt.

(** The record handed to [department.create] has [isActive ?? true]; the
    default of the schema has already made [isActive] a boolean. *)
Definition createDepartment (data : DepartmentInput) (userRole : string)
  : M Department :=
  checkAuthorization userRole ["ADMIN"; "HR"] ;;
  validatedData <- parse departmentSchema data ;;
  let name := v_name validatedData in
  let managerId := v_managerId validatedData in
  let parentId := v_parentId validatedData in
  try_catch
    (existingDepartment <- department_findFirst_name name None ;;
     (if existingDepartment is Some _ then
        throw (ValidationError "Department name already exists")
      else ret tt) ;;
     validate_manager managerId ;;
     validate_parent parentId ;;
     department_create
       (mkCreateData name managerId parentId (v_description validatedData)
                     (v_isActive validatedData)))
    (fun error =>
       match error with
       | ValidationError _ => throw error
       | _ => throw (PlainError "Failed to create department")
       end).

Definition to_update (x : field string) : option (option string) :=
  match x with
  | Undefined => None
  | Null => Some None
  | Val s => Some (Some s)
  end.

(** "Build update data object (only include fields that are being
    updated)": a key for every validated property that is not
    [undefined]. *)
Definition build_updateData (v : DepartmentPatch) : UpdateData :=
  mkUpdateData (u_name v) (to_update (u_managerId v))
               (to_update (u_parentId v)) (u_isActive v) (u_description v).

(** "Check if name is being changed and if it conflicts". *)
Definition check_name_conflict (id : string) (name : option string)
  (existingDepartment : Department) : M unit :=
  match name with
  | Some n =>
      if negb (String.eqb n "")
         && negb (String.eqb n (d_name existingDepartment)) then
        nameConflict <- department_findFirst_name n (Some id) ;;
        if nameConflict is Some _ then
          throw (ValidationError "Department name already exists")
        else ret tt
      else ret tt
  | None => ret tt
  end.

(** "Validate parent department and check for circular references", in
    update. *)
Definition validate_parent_and_cycle (id : string) (parentId : field string)
  : M unit :=
  if defined parentId then
    if truthy parentId then
      let newParentId := default "" (nullable parentId) in
      parent <- department_findFirst_active newParentId ;;
      (if parent is None then
         throw (ValidationError "Parent department not found or not active")
       else ret tt) ;;
      hasCircularRef <- checkCircularReference id newParentId ;;
      if hasCircularRef then
        throw (ValidationError
                 "Cannot create circular parent-child relationship")
      else ret tt
    else ret tt
  else ret tt.

Definition updateDepartment (id : string) (data : DepartmentInput)
  (userRole : string) : M Department :=
  (if String.eqb id "" then throw (ValidationError "Department ID is required")
   else ret tt) ;;
  checkAuthorization userRole ["ADMIN"; "HR"] ;;
  validatedData <- parse updateDepartmentSchema data ;;
  try_catch
    (existing <- department_findUnique id ;;
     match existing with
     | None => throw (NotFoundError "Department not found")
     | Some existingDepartment =>
         check_name_conflict id (u_name validatedData) existingDepartment ;;
         validate_manager (u_managerId validatedData) ;;
         validate_parent_and_cycle id (u_parentId validatedData) ;;
         department_update id (build_updateData validatedData)
     end)
    (fun error =>
       match error with
       | NotFoundError _ | ValidationError _ => throw error
       | _ => throw (PlainError "Failed to update department")
       end).

Definition deleteDepartment (id : string) (userRole : string) : M Department :=
  (if String.eqb id "" then throw (ValidationError "Department ID is required")
   else ret tt) ;;
  checkAuthorization userRole ["ADMIN"; "HR"] ;;
  try_catch
    (existing <- department_findUnique_dependents id ;;
     match existing with
     | None => throw (NotFoundError "Department not found")
     | Some existingDepartment =>
         (if negb (d_isActive (dep_row existingDepartment)) then
            throw (ValidationError "Department is already inactive")
          else ret tt) ;;
         (if Nat.ltb 0 (length (dep_employees existingDepartment)) then
            throw (ValidationError
                     ("Cannot delete department with "
                      +:+ show_nat (length (dep_employees existingDepartment))
                      +:+ " active employee(s). Please reassign employees first."))
          else ret tt) ;;
         (if Nat.ltb 0 (length (dep_children existingDepartment)) then
            throw (ValidationError
                     ("Cannot delete department with "
                      +:+ show_nat (length (dep_children existingDepartment))
                      +:+ " active child department(s). Please reassign or delete child departments first."))
          else ret tt) ;;
         (if Nat.ltb 0 (length (dep_positions existingDepartment)) then
            throw (ValidationError
                     ("Cannot delete department with "
                      +:+ show_nat (length (dep_positions existingDepartment))
                      +:+ " active position(s). Please reassign or delete positions first."))
          else ret tt) ;;
         department_update id
           (mkUpdateData None (Some None) None (Some false) None)
     end)
    (fun error =>
       match error with
       | NotFoundError _ | ValidationError _ => throw error
       | _ => throw (PlainError "Failed to delete department")
       end).

(* ===================================================================== *)
(** ** Notions used to state the properties *)
(* ===================================================================== *)

(** No call on the client is scheduled to fail. *)
Definition reliable (w : World) : Prop := Forall (fun b => b = false) (faults w).

(** The ancestor chain of [x] in the store, at most [n] nodes long: [x], its
    parent, the parent of its parent, and so on until a root, a row that is
    missing, or an identifier that is empty. *)
Fixpoint ancestry (d : Db) (n : nat) (x : option string) : list string :=
  match n, x with
  | S n', Some i =>
      if String.eqb i "" then []
      else i :: match parent_of d i with
                | Some p => ancestry d n' p
                | None => []
                end
  | _, _ => []
  end.

(** The nodes of a chain that a walk gets to look at under a failure
    schedule: the walk ends with the node whose lookup is rejected. *)
Fixpoint reached (fs : list bool) (chain : list string) : list string :=
  match chain with
  | [] => []
  | x :: rest =>
      x :: match fs with
           | true :: _ => []
           | _ => reached (tail fs) rest
           end
  end.

(** Some node of the chain is in [visited] or occurs earlier in the chain. *)
Fixpoint revisits (visited : gset string) (chain : list string) : bool :=
  match chain with
  | [] => false
  | x :: rest => bool_decide (x ∈ visited) || revisits (visited ∪ {[x]}) rest
  end.

Definition is_parent_lookup (q : Query) : bool :=
  match q with
  | QFindUniqueParentId _ => true
  | _ => false
  end.

Definition is_parent_validation (q : Query) : bool :=
  match q with
  | QFindFirstActive _ => true
  | _ => false
  end.

Definition is_write (q : Query) : bool :=
  match q with
  | QCreate _ | QUpdate _ _ => true
  | _ => false
  end.

(** A run moves the world along [R], whatever its outcome. *)
Definition steps (R : World -> World -> Prop) {A} (m : M A) : Prop :=
  forall w, R w (world_of (m w)).

(** The tables are the same. *)
Definition same_db (w w' : World) : Prop := db w' = db w.

(** The log has grown by calls that all satisfy [P]. *)
Definition logged (P : Query -> bool) (w w' : World) : Prop :=
  exists l, log w' = log w ++ l /\ forallb P l = true.

(** The two lookups that come before the parent validation of an update
    find nothing to object to. *)
Definition name_check_passes (d : Db) (id : string) (existing : Department)
  (v : DepartmentPatch) : Prop :=
  match u_name v with
  | Some n =>
      n <> "" -> n <> d_name existing ->
      List.find (name_filter n (Some id)) (departments d) = None
  | None => True
  end.

Definition manager_check_passes (d : Db) (v : DepartmentPatch) : Prop :=
  match u_managerId v with
  | Val m =>
      m <> "" -> List.find (active_employee_filter m) (employees d) <> None
  | _ => True
  end.

(** A call that is neither a parent validation, nor a lookup of the cycle
    check, nor a write. *)
Definition quiet (q : Query) : bool :=
  negb (is_parent_validation q) && negb (is_parent_lookup q)
  && negb (is_write q).

(** The issues [getDepartmentsSchema] reports, property by property. *)
Definition all_issues (params : ListInput) : list ZodIssue :=
  issues_of (userRole_schema (in_userRole params))
  ++ issues_of (page_schema (in_page params))
  ++ issues_of (limit_schema (in_limit params))
  ++ issues_of (active_schema (in_active params))
  ++ issues_of (uuid_schema "parentId" "Invalid parent department ID"
                            (in_parent params))
  ++ issues_of (search_schema (in_search params))
  ++ issues_of (sortBy_schema (in_sortBy params))
  ++ issues_of (sortOrder_schema (in_sortOrder params)).

(* ===================================================================== *)
(** ** A small organisation, used to run the service on concrete input *)
(* ===================================================================== *)

Module Fixture.

Definition engineering_id : string := "aaaaaaaa-0000-4000-8000-000000000001".
Definition platform_id : string := "bbbbbbbb-0000-4000-8000-000000000002".
Definition storage_id : string := "cccccccc-0000-4000-8000-000000000003".
Definition sales_id : string := "dddddddd-0000-4000-8000-000000000004".
Definition ada_id : string := "eeeeeeee-0000-4000-8000-000000000005".

(** Engineering is the parent of Platform, which is the parent of Storage;
    Sales is an inactive root. *)
Definition engineering : Department :=
  mkDepartment engineering_id "Engineering" None true (Some ada_id) None.
Definition platform : Department :=
  mkDepartment platform_id "Platform" None true None (Some engineering_id).
Definition storage : Department :=
  mkDepartment storage_id "Storage" (Some "disks") true None (Some platform_id).
Definition sales : Department :=
  mkDepartment sales_id "Sales" None false None None.

Definition tables : Db :=
  mkDb [engineering; platform; storage; sales]
       [mkEmployee ada_id (Some engineering_id) "ACTIVE"]
       [mkPosition "ffffffff-0000-4000-8000-000000000006"
                   (Some engineering_id) true].

Definition table_order (k : SortKey) (o : SortOrder) (rows : list Department)
  : list Department :=
  match o with
  | asc => rows
  | desc => rev rows
  end.

Definition world : World :=
  mkWorld tables [] ["99999999-0000-4000-8000-000000000007"] table_order [].

(** The same organisation when the second call on the client fails. *)
Definition flaky_world : World :=
  mkWorld tables [false; true] [] table_order [].

Definition only_parent (p : string) : DepartmentInput :=
  mkDepartmentInput Undefined Undefined (Val p) Undefined Undefined.

Definition only_description (s : string) : DepartmentInput :=
  mkDepartmentInput Undefined Undefined Undefined Undefined (Val s).

Definition only_name (s : string) : DepartmentInput :=
  mkDepartmentInput (Val s) Undefined Undefined Undefined Undefined.

Definition list_input (page limit : field Z) (sortBy sortOrder : field string)
  : ListInput :=
  mkListInput (Val "MANAGER") page limit Undefined Undefined Undefined sortBy
              sortOrder.

(** A hierarchy 52 levels deep: [node 0] is the root, [node 51] is its
    child, and [node i] is the child of [node (i + 1)] below that. *)
Definition node (i : nat) : string := "dept-" +:+ show_nat i.

Definition deep_tables : Db :=
  mkDb (mkDepartment (node 0) "root" None true None None
        :: List.map (fun i => mkDepartment (node i) (node i) None true None
                                (Some (node (if Nat.eqb i 51 then 0 else S i))))
                    (seq 1 51))
       [] [].

Definition deep_world : World := mkWorld deep_tables [] [] table_order [].

End Fixture.

(* ===================================================================== *)
(** ** Properties *)
(* ===================================================================== *)

(* --------------------------------------------------------------------- *)
(** *** The cycle check *)

Lemma walk_result n : forall cur visited w,
  result_of (ancestor_walk n cur visited w)
  = Returned (revisits visited (reached (faults w) (ancestry (db w) n cur))).
Proof.
  induction n as [|n IH]; intros cur visited w.
  - destruct cur; reflexivity.
  - destruct cur as [i|]; [|reflexivity].
    simpl. destruct (String.eqb i "") eqn:Hi; [reflexivity|].
    simpl. destruct (bool_decide (i ∈ visited)) eqn:Hv; [reflexivity|].
    simpl.
    unfold bind, try_catch, department_findUnique_parentId, client_read,
      client_call.
    destruct (faults w) as [|[|] fs] eqn:Hf; simpl.
    + destruct (parent_of (db w) i) as [p|]; simpl; [|reflexivity].
      rewrite IH. simpl. rewrite Hf. reflexivity.
    + reflexivity.
    + destruct (parent_of (db w) i) as [p|]; simpl; [|reflexivity].
      rewrite IH. simpl. rewrite Hf. reflexivity.
Qed.

Lemma walk_world n : forall cur visited w,
  exists l,
    world_of (ancestor_walk n cur visited w)
    = mkWorld (db w) (drop (length l) (faults w)) (fresh_ids w) (order_rows w)
              (log w ++ l)
    /\ forallb is_parent_lookup l = true.
Proof.
  induction n as [|n IH]; intros cur visited w.
  - exists []. rewrite drop_0, app_nil_r. destruct cur, w; auto.
  - destruct cur as [i|];
      [|exists []; rewrite drop_0, app_nil_r; destruct w; auto].
    simpl. destruct (String.eqb i "") eqn:Hi;
      [exists []; rewrite drop_0, app_nil_r; destruct w; auto|].
    destruct (bool_decide (i ∈ visited)) eqn:Hv;
      [exists []; rewrite drop_0, app_nil_r; destruct w; auto|].
    unfold bind, try_catch, department_findUnique_parentId, client_read,
      client_call.
    assert (Hstop : exists l,
       tick (QFindUniqueParentId i) w
       = mkWorld (db w) (drop (length l) (faults w)) (fresh_ids w)
                 (order_rows w) (log w ++ l)
       /\ forallb is_parent_lookup l = true).
    { exists [QFindUniqueParentId i]. split; [|reflexivity].
      reflexivity. }
    assert (Hgo : forall p, exists l,
       world_of (ancestor_walk n p (visited ∪ {[i]})
                               (tick (QFindUniqueParentId i) w))
       = mkWorld (db w) (drop (length l) (faults w)) (fresh_ids w)
                 (order_rows w) (log w ++ l)
       /\ forallb is_parent_lookup l = true).
    { intros p. destruct (IH p (visited ∪ {[i]}) (tick (QFindUniqueParentId i) w))
        as (l & Hw & Hl).
      exists (QFindUniqueParentId i :: l). split; [|simpl; exact Hl].
      rewrite Hw. simpl. rewrite <- app_assoc. f_equal.
      destruct (faults w); simpl; [by rewrite drop_nil|done]. }
    destruct (faults w) as [|[|] fs] eqn:Hf; simpl.
    + destruct (parent_of (db w) i) as [p|]; simpl; [apply Hgo|apply Hstop].
    + apply Hstop.
    + destruct (parent_of (db w) i) as [p|]; simpl; [apply Hgo|apply Hstop].
Qed.


Lemma reached_reliable fs chain :
  Forall (fun b => b = false) fs -> reached fs chain = chain.
Proof.
  revert fs. induction chain as [|x rest IH]; intros fs Hfs; [done|].
  simpl. destruct Hfs as [|b fs Hb Hfs]; simpl.
  - by rewrite IH.
  - subst b. by rewrite IH.
Qed.

Lemma revisits_false visited chain :
  revisits visited chain = false <->
  NoDup chain /\ forall x, x ∈ chain -> x ∉ visited.
Proof.
  revert visited. induction chain as [|x rest IH]; intros visited; simpl.
  - split; [intros _; split; [constructor|set_solver]|done].
  - rewrite orb_false_iff, bool_decide_eq_false, IH, NoDup_cons.
    split.
    + intros (Hx & Hnd & Hrest). split; [split; [|done]|].
      * intros Hin. apply Hrest in Hin. set_solver.
      * intros y Hy. apply elem_of_cons in Hy as [->|Hy]; [done|].
        apply Hrest in Hy. set_solver.
    + intros ((Hx & Hnd) & Hall). split; [apply Hall; set_solver|].
      split; [done|]. intros y Hy. specialize (Hall y).
      assert (y <> x) by (intros ->; done). set_solver.
Qed.

Lemma checkCircularReference_result departmentId parentId w :
  result_of (checkCircularReference departmentId parentId w)
  = Returned (String.eqb departmentId parentId
              || revisits {[departmentId]}
                   (reached (faults w)
                            (ancestry (db w) maxDepth (Some parentId)))).
Proof.
  unfold checkCircularReference.
  destruct (String.eqb departmentId parentId); [reflexivity|].
  apply walk_result.
Qed.

(** Claim C1.  For every department identifier [x], the cycle check called
    with equal arguments returns [true] at once: the world it hands back is
    the one it was given, so no call was made on the store. *)
Theorem checkCircularReference_self (x : string) (w : World) :
  checkCircularReference x x w = (Returned true, w)
  /\ issued (checkCircularReference x x) w = [].
Proof.
  unfold issued, checkCircularReference. rewrite String.eqb_refl. simpl.
  split; [done|]. apply drop_all.
Qed.

(** In a reliable world the check says exactly whether the proposed parent
    is the department itself or the department, or a repeated node, shows
    up among the first [maxDepth] nodes of the ancestor chain. *)
Lemma checkCircularReference_reliable departmentId parentId w :
  reliable w -> departmentId <> parentId ->
  (result_of (checkCircularReference departmentId parentId w) = Returned false
   <-> NoDup (departmentId :: ancestry (db w) maxDepth (Some parentId))).
Proof.
  intros Hw Hne. rewrite checkCircularReference_result, reached_reliable by done.
  apply String.eqb_neq in Hne. rewrite Hne. simpl.
  rewrite NoDup_cons. split.
  - intros [= H]. apply revisits_false in H as [Hnd Hall]. split; [|done].
    intros Hin. apply Hall in Hin. set_solver.
  - intros [Hin Hnd]. f_equal. apply revisits_false. split; [done|].
    set_solver.
Qed.

(** Claim C2.  For every stored chain A -> B -> C (the parent of C is B, the
    parent of B is A, A is a root) of departments with non-empty
    identifiers, in a world whose lookups succeed, the cycle check of
    (A, C) returns [true], and for every D other than A, B and C the cycle
    check of (D, C) returns [false]. *)
Theorem checkCircularReference_chain (w : World) (A B C D : string) :
  reliable w ->
  A <> "" -> B <> "" -> C <> "" ->
  parent_of (db w) C = Some (Some B) ->
  parent_of (db w) B = Some (Some A) ->
  parent_of (db w) A = Some None ->
  D <> A -> D <> B -> D <> C ->
  result_of (checkCircularReference A C w) = Returned true /\
  result_of (checkCircularReference D C w) = Returned false.
Proof.
  intros Hw HA HB HC HpC HpB HpA HDA HDB HDC.
  assert (HAB : A <> B) by congruence.
  assert (HBC : B <> C) by congruence.
  assert (HAC : A <> C) by congruence.
  assert (Hchain : ancestry (db w) maxDepth (Some C) = [C; B; A]).
  { unfold maxDepth. simpl.
    apply String.eqb_neq in HA, HB, HC. by rewrite HC, HpC, HB, HpB, HA, HpA. }
  rewrite !checkCircularReference_result, Hchain, reached_reliable by done.
  split; f_equal.
  - apply orb_true_iff. right. simpl.
    rewrite !orb_true_iff. right. right. left.
    apply bool_decide_eq_true. set_solver.
  - apply orb_false_iff. split; [by apply String.eqb_neq|].
    apply revisits_false. split.
    + apply NoDup_cons. split; [set_solver|].
      apply NoDup_cons. split; [set_solver|]. apply NoDup_singleton.
    + set_solver.
Qed.

Lemma reached_nil_inv fs chain : reached fs chain = [] -> chain = [].
Proof. by destruct chain. Qed.

Lemma ancestry_head d n p x rest :
  ancestry d n (Some p) = x :: rest -> x = p.
Proof.
  destruct n as [|n]; simpl; [done|].
  destruct (String.eqb p ""); [done|]. by intros [= -> _].
Qed.

Lemma reached_head fs chain x rest :
  reached fs chain = x :: rest -> exists rest', chain = x :: rest'.
Proof. destruct chain as [|y l]; simpl; [done|]. intros [= -> _]. eauto. Qed.

(** Claim C3.  The walk fails open.  Let [seen] be the nodes of the ancestor
    chain of [parentId] the walk gets to look at: at most [maxDepth] of
    them, ending with the node whose lookup is rejected.  If no node of
    [seen] is visited twice and none is [departmentId], then the check
    returns [false], and throws nothing, whenever the walk stops because
    [maxDepth] nodes were looked at, or because the last node has no row in
    the store, or because a lookup was rejected by the store. *)
Theorem checkCircularReference_fails_open
  (w : World) (departmentId parentId : string) :
  let chain := ancestry (db w) maxDepth (Some parentId) in
  let seen := reached (faults w) chain in
  NoDup (departmentId :: seen) ->
  length seen = maxDepth
  \/ (exists x, last seen = Some x /\ parent_of (db w) x = None)
  \/ (exists k, faults w !! k = Some true /\ k < length chain) ->
  result_of (checkCircularReference departmentId parentId w) = Returned false.
Proof.
  intros chain seen Hnd Hwhy.
  rewrite checkCircularReference_result. fold chain. fold seen.
  apply NoDup_cons in Hnd as [Hdep Hnd].
  assert (Hne : seen <> []).
  { destruct Hwhy as [Hlen|[(x & Hlast & _)|(k & _ & Hk)]].
    - intros E. by rewrite E in Hlen.
    - intros E. by rewrite E in Hlast.
    - intros E. apply reached_nil_inv in E. rewrite E in Hk. simpl in Hk. lia. }
  f_equal. apply orb_false_iff. split.
  - apply String.eqb_neq. intros ->.
    destruct seen as [|x rest] eqn:E; [done|].
    apply reached_head in E as [rest' E].
    apply ancestry_head in E as ->. set_solver.
  - apply revisits_false. split; [done|]. set_solver.
Qed.

(* --------------------------------------------------------------------- *)
(** *** Runs in a reliable world *)

Lemma reliable_tick q w : reliable w -> reliable (tick q w).
Proof.
  unfold reliable. simpl. intros H. destruct (faults w); [done|].
  by inversion H.
Qed.

Lemma client_call_reliable {A} q (run : World -> Outcome A * World) w :
  reliable w -> client_call q run w = run (tick q w).
Proof.
  unfold reliable, client_call. intros H.
  destruct (faults w) as [|[|] fs]; try reflexivity.
  inversion H; discriminate.
Qed.

Lemma client_read_reliable {A} q (f : Db -> A) w :
  reliable w -> client_read q f w = (Returned (f (db w)), tick q w).
Proof. intros H. unfold client_read. by rewrite client_call_reliable. Qed.

Lemma checkAuthorization_member role roles w :
  In role roles -> checkAuthorization role roles w = (Returned tt, w).
Proof.
  intros H. unfold checkAuthorization.
  assert (existsb (String.eqb role) roles = true) as ->; [|reflexivity].
  apply existsb_exists. exists role. split; [done|apply String.eqb_refl].
Qed.

(** The run of [deleteDepartment] on an active department, in a reliable
    world: the first dependency that is not empty stops it. *)
Lemma deleteDepartment_run w id role existing :
  reliable w -> id <> "" -> In role ["ADMIN"; "HR"] ->
  find_department (db w) id = Some existing ->
  d_isActive existing = true ->
  deleteDepartment id role w =
  let w1 := tick (QFindUniqueDependents id) w in
  let data := mkUpdateData None (Some None) None (Some false) None in
  match length (active_employees (db w) id),
        length (active_children (db w) id),
        length (active_positions (db w) id) with
  | S n, _, _ =>
      (Thrown (ValidationError
                 ("Cannot delete department with " +:+ show_nat (S n)
                  +:+ " active employee(s). Please reassign employees first.")),
       w1)
  | O, S n, _ =>
      (Thrown (ValidationError
                 ("Cannot delete department with " +:+ show_nat (S n)
                  +:+ " active child department(s). Please reassign or delete child departments first.")),
       w1)
  | O, O, S n =>
      (Thrown (ValidationError
                 ("Cannot delete department with " +:+ show_nat (S n)
                  +:+ " active position(s). Please reassign or delete positions first.")),
       w1)
  | O, O, O =>
      (Returned (apply_update data existing),
       mkWorld (mkDb (update_rows id data (departments (db w)))
                     (employees (db w)) (positions (db w)))
               (tail (tail (faults w))) (fresh_ids w) (order_rows w)
               (log w ++ [QFindUniqueDependents id; QUpdate id data]))
  end.
Proof.
  intros Hw Hid Hrole Hfind Hact.
  unfold deleteDepartment.
  apply String.eqb_neq in Hid.
  unfold bind, try_catch. rewrite Hid. simpl.
  rewrite checkAuthorization_member by done.
  unfold department_findUnique_dependents. rewrite client_read_reliable by done.
  rewrite Hfind. simpl. rewrite Hact. simpl.
  destruct (length (active_employees (db w) id)); [|reflexivity].
  destruct (length (active_children (db w) id)); [|reflexivity].
  destruct (length (active_positions (db w) id)); [|reflexivity].
  simpl. unfold department_update.
  rewrite client_call_reliable by (by apply reliable_tick).
  simpl. rewrite Hfind. simpl. by rewrite <- app_assoc.
Qed.

(** Claim C5.  For an existing active department with [n >= 1] active
    employees, the soft delete throws the validation error whose message
    carries [n], and writes nothing.  For an existing active department
    with no active employee, no active child and no active position, it
    returns the record with [isActive = false] and [managerId = null], the
    other columns as before, and both changes are the data of the single
    update it issues. *)
Theorem deleteDepartment_dependency_guard
  (w : World) (id role : string) (existing : Department) :
  reliable w -> id <> "" -> In role ["ADMIN"; "HR"] ->
  find_department (db w) id = Some existing ->
  d_isActive existing = true ->
  let n := length (active_employees (db w) id) in
  let run := deleteDepartment id role w in
  let data := mkUpdateData None (Some None) None (Some false) None in
  (1 <= n ->
     result_of run
     = Thrown (ValidationError
                 ("Cannot delete department with " +:+ show_nat n
                  +:+ " active employee(s). Please reassign employees first."))
     /\ db (world_of run) = db w)
  /\
  (n = 0 -> active_children (db w) id = [] -> active_positions (db w) id = [] ->
     exists d',
       result_of run = Returned d'
       /\ d_isActive d' = false /\ d_managerId d' = None
       /\ d_id d' = d_id existing /\ d_name d' = d_name existing
       /\ d_description d' = d_description existing
       /\ d_parentId d' = d_parentId existing
       /\ issued (deleteDepartment id role) w
          = [QFindUniqueDependents id; QUpdate id data]
       /\ set_isActive data = Some false /\ set_managerId data = Some None
       /\ find_department (db (world_of run)) id = Some d').
Proof.
  intros Hw Hid Hrole Hfind Hact n run data. subst run.
  unfold issued. rewrite (deleteDepartment_run w id role existing) by done. split.
  - intros Hn. fold n. destruct n; [lia|]. done.
  - fold n. intros -> -> ->. simpl.
    exists (apply_update data existing).
    rewrite drop_app_length.
    repeat split; try reflexivity.
    unfold find_department, update_rows. simpl.
    unfold find_department in Hfind.
    clear -Hfind. induction (departments (db w)) as [|r rows IH]; [done|].
    simpl in *. destruct (String.eqb (d_id r) id) eqn:E; simpl.
    + rewrite E. by injection Hfind as ->.
    + rewrite E. auto.
Qed.

(** *** What a run does to the world, whatever its outcome *)

#[local] Instance same_db_refl : Reflexive same_db.
Proof. by intros w. Qed.

#[local] Instance same_db_trans : Transitive same_db.
Proof. unfold same_db. intros w1 w2 w3 H1 H2. congruence. Qed.

#[local] Instance logged_refl P : Reflexive (logged P).
Proof. intros w. exists []. by rewrite app_nil_r. Qed.

#[local] Instance logged_trans P : Transitive (logged P).
Proof.
  intros w1 w2 w3 (l1 & E1 & H1) (l2 & E2 & H2). exists (l1 ++ l2).
  rewrite E2, E1, app_assoc. split; [done|].
  rewrite forallb_app. by rewrite H1, H2.
Qed.

Section steps_rules.
Context (R : World -> World -> Prop) `{!Reflexive R} `{!Transitive R}.

Lemma steps_ret {A} (a : A) : steps R (ret a).
Proof. intros w. reflexivity. Qed.

Lemma steps_throw {A} e : steps R (@throw A e).
Proof. intros w. reflexivity. Qed.

Lemma steps_bind {A B} (m : M A) (k : A -> M B) :
  steps R m -> (forall a, steps R (k a)) -> steps R (bind m k).
Proof.
  intros Hm Hk w. unfold bind, world_of. specialize (Hm w).
  unfold world_of in Hm. destruct (m w) as [[a|e] w1]; simpl in *; [|done].
  etrans; [exact Hm|apply Hk].
Qed.

Lemma steps_try_catch {A} (m : M A) h :
  steps R m -> (forall e, steps R (h e)) -> steps R (try_catch m h).
Proof.
  intros Hm Hh w. unfold try_catch, world_of. specialize (Hm w).
  unfold world_of in Hm. destruct (m w) as [[a|e] w1]; simpl in *; [done|].
  etrans; [exact Hm|apply Hh].
Qed.

Lemma steps_client_call {A} q (run : M A) :
  (forall w, R w (tick q w)) -> steps R run -> steps R (client_call q run).
Proof.
  intros Hq Hrun w. unfold client_call.
  destruct (faults w) as [|[|] fs]; simpl;
    try (etrans; [apply Hq|apply Hrun]). apply Hq.
Qed.

Lemma steps_client_read {A} q (f : Db -> A) :
  (forall w, R w (tick q w)) -> steps R (client_read q f).
Proof.
  intros Hq. apply steps_client_call; [done|]. intros w. reflexivity.
Qed.

Lemma steps_promise_all {A B} (a : M A) (b : M B) :
  steps R a -> steps R b -> steps R (promise_all a b).
Proof.
  intros Ha Hb w. unfold promise_all, world_of.
  specialize (Ha w). unfold world_of in Ha.
  destruct (a w) as [ra w1]. specialize (Hb w1). unfold world_of in Hb.
  destruct (b w1) as [rb w2]. simpl in *.
  assert (R w w2) by (etrans; eauto).
  destruct ra, rb; done.
Qed.
End steps_rules.

Lemma same_db_tick q w : same_db w (tick q w).
Proof. reflexivity. Qed.

Lemma logged_tick (P : Query -> bool) q w : P q = true -> logged P w (tick q w).
Proof. intros H. exists [q]. simpl. by rewrite H. Qed.

Lemma steps_walk_same_db n cur visited :
  steps same_db (ancestor_walk n cur visited).
Proof.
  intros w. destruct (walk_world n cur visited w) as (l & -> & _). reflexivity.
Qed.

Lemma steps_walk_logged (P : Query -> bool) n cur visited :
  (forall i, P (QFindUniqueParentId i) = true) ->
  steps (logged P) (ancestor_walk n cur visited).
Proof.
  intros HP w. destruct (walk_world n cur visited w) as (l & -> & Hl).
  exists l. split; [done|]. apply forallb_forall. intros q Hq.
  eapply forallb_forall in Hl; [|exact Hq]. destruct q; first [done|apply HP].
Qed.

Lemma steps_checkCircularReference_same_db a b :
  steps same_db (checkCircularReference a b).
Proof.
  unfold checkCircularReference. destruct (String.eqb a b).
  - apply steps_ret; apply _.
  - apply steps_walk_same_db.
Qed.

Lemma steps_checkCircularReference_logged (P : Query -> bool) a b :
  (forall i, P (QFindUniqueParentId i) = true) ->
  steps (logged P) (checkCircularReference a b).
Proof.
  intros HP. unfold checkCircularReference. destruct (String.eqb a b).
  - apply steps_ret; apply _.
  - by apply steps_walk_logged.
Qed.

Ltac steps_tac :=
  repeat first
    [ apply steps_ret; apply _
    | apply steps_throw; apply _
    | apply steps_bind; try apply _; [|intros ?]
    | apply steps_try_catch; try apply _; [|intros ?]
    | apply steps_client_read; try apply _; intros ?
    | apply same_db_tick
    | apply logged_tick; reflexivity
    | apply steps_checkCircularReference_same_db
    | apply steps_checkCircularReference_logged; intros ?; reflexivity
    | match goal with
      | |- steps _ (match ?x with _ => _ end) => destruct x
      end ].

Lemma check_name_conflict_same_db id name existing :
  steps same_db (check_name_conflict id name existing).
Proof. unfold check_name_conflict, department_findFirst_name. steps_tac. Qed.

Lemma validate_manager_same_db managerId : steps same_db (validate_manager managerId).
Proof. unfold validate_manager, employee_findFirst_active. steps_tac. Qed.

Lemma validate_parent_and_cycle_same_db id parentId :
  steps same_db (validate_parent_and_cycle id parentId).
Proof.
  unfold validate_parent_and_cycle, department_findFirst_active. steps_tac.
Qed.

(** *** Runs that return *)

Lemma bind_returned {A B} (m : M A) (k : A -> M B) w b w' :
  bind m k w = (Returned b, w') ->
  exists a w1, m w = (Returned a, w1) /\ k a w1 = (Returned b, w').
Proof.
  unfold bind. destruct (m w) as [[a|e] w1]; [eauto|discriminate].
Qed.

Lemma try_catch_returned {A} (m : M A) h w a w' :
  (forall e w0, exists e', h e w0 = (Thrown e', w0)) ->
  try_catch m h w = (Returned a, w') -> m w = (Returned a, w').
Proof.
  intros Hh. unfold try_catch. destruct (m w) as [[a0|e] w1]; [done|].
  destruct (Hh e w1) as [e' ->]. discriminate.
Qed.

Lemma client_call_returned {A} q (run : M A) w a w' :
  client_call q run w = (Returned a, w') -> run (tick q w) = (Returned a, w').
Proof.
  unfold client_call. by destruct (faults w) as [|[|] fs].
Qed.

Lemma client_read_returned {A} q (f : Db -> A) w a w' :
  client_read q f w = (Returned a, w') -> a = f (db w) /\ w' = tick q w.
Proof.
  intros H. apply client_call_returned in H. by injection H as <- <-.
Qed.

Lemma checkAuthorization_returned role roles w u w' :
  checkAuthorization role roles w = (Returned u, w') ->
  existsb (String.eqb role) roles = true /\ w' = w.
Proof.
  unfold checkAuthorization. destruct (existsb _ roles); simpl; [|discriminate].
  by intros [= _ <-].
Qed.

Lemma parse_returned {A B} (schema : A -> Parsed B) x w b w' :
  parse schema x w = (Returned b, w') -> schema x = Valid b /\ w' = w.
Proof.
  unfold parse. destruct (schema x); simpl; [|discriminate].
  by intros [= <- <-].
Qed.

Lemma department_update_returned i data w d' w' :
  department_update i data w = (Returned d', w') ->
  exists r,
    find_department (db w) i = Some r
    /\ d' = apply_update data r
    /\ db w' = mkDb (update_rows i data (departments (db w)))
                    (employees (db w)) (positions (db w))
    /\ log w' = log w ++ [QUpdate i data].
Proof.
  intros H. apply client_call_returned in H. simpl in H.
  destruct (find_department (db w) i) as [r|]; [|discriminate].
  injection H as <- <-. by exists r.
Qed.

Lemma steps_returned {A} R (m : M A) w a w' :
  steps R m -> m w = (a, w') -> R w w'.
Proof. intros Hm E. specialize (Hm w). by rewrite E in Hm. Qed.

(** A property that is missing from the payload is [undefined] in the
    validated payload, and so has no key in the update. *)
Lemma updateDepartmentSchema_omitted data v :
  updateDepartmentSchema data = Valid v ->
  (in_name data = Undefined -> set_name (build_updateData v) = None)
  /\ (in_managerId data = Undefined -> set_managerId (build_updateData v) = None)
  /\ (in_parentId data = Undefined -> set_parentId (build_updateData v) = None)
  /\ (in_isActive data = Undefined -> set_isActive (build_updateData v) = None)
  /\ (in_description data = Undefined
      -> set_description (build_updateData v) = None).
Proof.
  unfold updateDepartmentSchema.
  destruct (optional name_schema (in_name data)) as [n|] eqn:En;
  destruct (uuid_schema "managerId" _ (in_managerId data)) as [m|] eqn:Em;
  destruct (uuid_schema "parentId" _ (in_parentId data)) as [p|] eqn:Ep;
  destruct (optional isActive_schema (in_isActive data)) as [a|] eqn:Ea;
  destruct (optional description_schema (in_description data)) as [d|] eqn:Ed;
  try discriminate.
  intros [= <-]. simpl.
  repeat split; intros E; rewrite E in *; simpl in *; by simplify_eq.
Qed.

Lemma updateDepartment_returned
  (w : World) (id : string) (data : DepartmentInput) (role : string)
  (d' : Department) (w' : World) :
  updateDepartment id data role w = (Returned d', w') ->
  exists v existing,
    updateDepartmentSchema data = Valid v
    /\ find_department (db w) id = Some existing
    /\ d' = apply_update (build_updateData v) existing
    /\ db w' = mkDb (update_rows id (build_updateData v) (departments (db w)))
                    (employees (db w)) (positions (db w))
    /\ last (log w') = Some (QUpdate id (build_updateData v))
    /\ (forall r, In r (departments (db w)) -> d_id r <> id ->
                  In r (departments (db w')))
    /\ (in_name data = Undefined -> d_name d' = d_name existing)
    /\ (in_managerId data = Undefined -> d_managerId d' = d_managerId existing)
    /\ (in_parentId data = Undefined -> d_parentId d' = d_parentId existing)
    /\ (in_isActive data = Undefined -> d_isActive d' = d_isActive existing)
    /\ (in_description data = Undefined
        -> d_description d' = d_description existing)
    /\ d_id d' = d_id existing.
Proof.
  intros H. unfold updateDepartment in H.
  apply bind_returned in H as (u0 & w0 & H0 & H).
  destruct (String.eqb id ""); [discriminate|]. injection H0 as _ <-.
  apply bind_returned in H as (u1 & w1 & H1 & H).
  apply checkAuthorization_returned in H1 as [_ ->].
  apply bind_returned in H as (v & w2 & H2 & H).
  apply parse_returned in H2 as [Hv ->].
  apply try_catch_returned in H;
    [|intros [] w0; simpl; unfold throw; eauto].
  apply bind_returned in H as (existing & w3 & H3 & H).
  apply client_read_returned in H3 as [-> ->].
  destruct (find_department (db w) id) as [existing|] eqn:Hfind;
    [|discriminate].
  apply bind_returned in H as (u4 & w4 & H4 & H).
  apply (steps_returned same_db) in H4; [|apply check_name_conflict_same_db].
  apply bind_returned in H as (u5 & w5 & H5 & H).
  apply (steps_returned same_db) in H5; [|apply validate_manager_same_db].
  apply bind_returned in H as (u6 & w6 & H6 & H).
  apply (steps_returned same_db) in H6;
    [|apply validate_parent_and_cycle_same_db].
  assert (Hdb : db w6 = db w).
  { unfold same_db in *. rewrite H6, H5, H4. reflexivity. }
  apply department_update_returned in H as (r & Hr & -> & Hdb' & Hlog).
  rewrite Hdb in Hr, Hdb'. rewrite Hfind in Hr. injection Hr as <-.
  exists v, existing.
  destruct (updateDepartmentSchema_omitted data v Hv)
    as (On & Om & Op & Oa & Od).
  repeat split; try done.
  - rewrite Hlog. apply last_snoc.
  - intros r Hr Hne. rewrite Hdb'. simpl. unfold update_rows.
    apply in_map_iff. exists r. split; [|done].
    apply String.eqb_neq in Hne. by rewrite Hne.
  - intros E. apply On in E. simpl in *. by rewrite E.
  - intros E. apply Om in E. simpl in *. by rewrite E.
  - intros E. apply Op in E. simpl in *. by rewrite E.
  - intros E. apply Oa in E. simpl in *. by rewrite E.
  - intros E. apply Od in E. simpl in *. by rewrite E.
Qed.

(** Claim C7.  Frame property of the partial update.  Whenever an update
    returns, the row it returns and stores is the previous row with exactly
    the keys of [updateData] overwritten, and [updateData] has a key only
    for the properties the validated payload defines: a property left out
    of the payload (name, managerId, parentId, isActive, description) keeps
    its previous value, and no other row, employee or position changes. *)
Theorem updateDepartment_frame
  (w : World) (id : string) (data : DepartmentInput) (role : string)
  (d' : Department) (w' : World) :
  updateDepartment id data role w = (Returned d', w') ->
  exists v existing,
    updateDepartmentSchema data = Valid v
    /\ find_department (db w) id = Some existing
    /\ d' = apply_update (build_updateData v) existing
    /\ db w' = mkDb (update_rows id (build_updateData v) (departments (db w)))
                    (employees (db w)) (positions (db w))
    /\ last (log w') = Some (QUpdate id (build_updateData v))
    /\ (forall r, In r (departments (db w)) -> d_id r <> id ->
                  In r (departments (db w')))
    /\ (in_name data = Undefined -> d_name d' = d_name existing)
    /\ (in_managerId data = Undefined -> d_managerId d' = d_managerId existing)
    /\ (in_parentId data = Undefined -> d_parentId d' = d_parentId existing)
    /\ (in_isActive data = Undefined -> d_isActive d' = d_isActive existing)
    /\ (in_description data = Undefined
        -> d_description d' = d_description existing)
    /\ d_id d' = d_id existing.
Proof. apply updateDepartment_returned. Qed.


(** *** The update in a reliable world *)

Lemma checkCircularReference_reliable_result a b w1 w2 :
  reliable w1 -> reliable w2 -> db w1 = db w2 ->
  result_of (checkCircularReference a b w1)
  = result_of (checkCircularReference a b w2).
Proof.
  intros H1 H2 E. rewrite !checkCircularReference_result.
  rewrite !reached_reliable by done. by rewrite E.
Qed.

Lemma reliable_walk_world n cur visited w :
  reliable w -> reliable (world_of (ancestor_walk n cur visited w)).
Proof.
  intros H. destruct (walk_world n cur visited w) as (l & -> & _).
  unfold reliable in *. simpl. by apply Forall_drop.
Qed.

Lemma check_name_conflict_passes w id existing v :
  reliable w -> name_check_passes (db w) id existing v ->
  exists w1,
    check_name_conflict id (u_name v) existing w = (Returned tt, w1)
    /\ reliable w1 /\ db w1 = db w /\ logged quiet w w1.
Proof.
  intros Hw Hpass. unfold check_name_conflict, name_check_passes in *.
  destruct (u_name v) as [n|]; [|exists w; repeat split; [done|reflexivity]].
  destruct (String.eqb n "") eqn:E1; simpl;
    [exists w; repeat split; [done|reflexivity]|].
  destruct (String.eqb n (d_name existing)) eqn:E2; simpl;
    [exists w; repeat split; [done|reflexivity]|].
  apply String.eqb_neq in E1, E2.
  exists (tick (QFindFirstByName n (Some id)) w).
  unfold bind, department_findFirst_name.
  rewrite client_read_reliable, Hpass by done.
  repeat split; [by apply reliable_tick|by apply logged_tick].
Qed.

Lemma validate_manager_passes w v :
  reliable w -> manager_check_passes (db w) v ->
  exists w1,
    validate_manager (u_managerId v) w = (Returned tt, w1)
    /\ reliable w1 /\ db w1 = db w /\ logged quiet w w1.
Proof.
  intros Hw Hpass. unfold validate_manager, manager_check_passes in *.
  destruct (u_managerId v) as [| |m]; simpl;
    try (exists w; repeat split; [done|reflexivity]).
  destruct (String.eqb m "") eqn:E1; simpl;
    [exists w; repeat split; [done|reflexivity]|].
  apply String.eqb_neq in E1.
  exists (tick (QEmployeeFindFirstActive m) w).
  unfold bind, employee_findFirst_active.
  rewrite client_read_reliable by done.
  destruct (List.find _ (employees (db w))); [|by destruct Hpass].
  repeat split; [by apply reliable_tick|by apply logged_tick].
Qed.

Lemma updateDepartment_upto_parent w id data role v existing :
  reliable w -> id <> "" -> In role ["ADMIN"; "HR"] ->
  updateDepartmentSchema data = Valid v ->
  find_department (db w) id = Some existing ->
  name_check_passes (db w) id existing v ->
  manager_check_passes (db w) v ->
  exists w1,
    reliable w1 /\ db w1 = db w /\ logged quiet w w1
    /\ updateDepartment id data role w
       = try_catch
           (validate_parent_and_cycle id (u_parentId v) ;;
            department_update id (build_updateData v))
           (fun error =>
              match error with
              | NotFoundError _ | ValidationError _ => throw error
              | _ => throw (PlainError "Failed to update department")
              end) w1.
Proof.
  intros Hw Hid Hrole Hv Hfind Hname Hmgr.
  destruct (check_name_conflict_passes (tick (QFindUnique id) w) id existing v)
    as (w1 & E1 & Hw1 & Hdb1 & Hlog1); [by apply reliable_tick|done|].
  destruct (validate_manager_passes w1 v)
    as (w2 & E2 & Hw2 & Hdb2 & Hlog2); [done|by rewrite Hdb1|].
  exists w2. split; [done|]. split; [by rewrite Hdb2, Hdb1|]. split.
  { etrans; [|exact Hlog2]. etrans; [|exact Hlog1]. by apply logged_tick. }
  unfold updateDepartment. apply String.eqb_neq in Hid.
  unfold bind at 1. rewrite Hid. simpl.
  unfold bind at 1. rewrite checkAuthorization_member by done.
  unfold bind at 1, parse. rewrite Hv. simpl.
  unfold try_catch, bind at 1, department_findUnique.
  rewrite client_read_reliable, Hfind by done.
  unfold bind at 1. rewrite E1. unfold bind at 1. rewrite E2. reflexivity.
Qed.

Lemma issued_logged {A} P (m : M A) w :
  logged P w (world_of (m w)) -> forallb P (issued m w) = true.
Proof.
  intros (l & E & Hl). unfold issued. by rewrite E, drop_app_length.
Qed.

Lemma logged_weaken (P Q : Query -> bool) w w' :
  (forall q, P q = true -> Q q = true) -> logged P w w' -> logged Q w w'.
Proof.
  intros HPQ (l & E & Hl). exists l. split; [done|].
  apply forallb_forall. intros q Hq. apply HPQ.
  eapply forallb_forall in Hl; eauto.
Qed.

Lemma steps_bind_parse R `{!Reflexive R} {A B C} (schema : A -> Parsed B) x
  (k : B -> M C) :
  (forall v, schema x = Valid v -> steps R (k v)) ->
  steps R (bind (parse schema x) k).
Proof.
  intros Hk w. unfold bind, parse.
  destruct (schema x) as [v|l] eqn:E; simpl; [by apply Hk|reflexivity].
Qed.

Lemma updateDepartmentSchema_parentId data v :
  updateDepartmentSchema data = Valid v ->
  match in_parentId data with
  | Val s => u_parentId v = Val s /\ is_uuid s = true
  | Null => u_parentId v = Null
  | Undefined => u_parentId v = Undefined
  end.
Proof.
  unfold updateDepartmentSchema.
  destruct (optional name_schema (in_name data)) as [n|];
  destruct (uuid_schema "managerId" _ (in_managerId data)) as [m|];
  destruct (uuid_schema "parentId" _ (in_parentId data)) as [p|] eqn:Ep;
  destruct (optional isActive_schema (in_isActive data)) as [a|];
  destruct (optional description_schema (in_description data)) as [d|];
  try discriminate.
  intros [= <-]. simpl. unfold uuid_schema in Ep.
  destruct (in_parentId data) as [| |s]; try by simplify_eq.
  destruct (is_uuid s); by simplify_eq.
Qed.

Lemma updateDepartmentSchema_parent_uuid data v s :
  updateDepartmentSchema data = Valid v -> u_parentId v = Val s ->
  is_uuid s = true.
Proof.
  intros Hv E. apply updateDepartmentSchema_parentId in Hv.
  destruct (in_parentId data); try congruence.
  destruct Hv as [E' Hu]. congruence.
Qed.

Lemma is_uuid_nonempty s : is_uuid s = true -> s <> "".
Proof. by intros H ->. Qed.

Lemma steps_department_update_logged (P : Query -> bool) i data :
  P (QUpdate i data) = true -> steps (logged P) (department_update i data).
Proof.
  intros HP. unfold department_update.
  apply steps_client_call; [apply _|intros w; by apply logged_tick|].
  intros w. destruct (find_department (db w) i); exists [];
    by rewrite app_nil_r.
Qed.

(** Claim C4.  For an update that reaches the parent validation (reliable
    store, identifier given, authorized caller, valid payload, existing
    department, name and manager accepted) with a validated [parentId] that
    is a value: if no active department has that identifier the update
    throws the validation error "Parent department not found or not
    active", before any lookup of the cycle check and with no write;
    otherwise, if the cycle check of [(id, parentId)] reports a cycle, it
    throws "Cannot create circular parent-child relationship" and writes
    nothing.  And for every update whose payload has [parentId] missing or
    [null], no parent validation and no lookup of the cycle check is ever
    issued. *)
Theorem updateDepartment_parent_validation :
  (forall (w : World) (id : string) (data : DepartmentInput) (role : string)
          (v : DepartmentPatch) (existing : Department) (newParentId : string),
      reliable w -> id <> "" -> In role ["ADMIN"; "HR"] ->
      updateDepartmentSchema data = Valid v ->
      find_department (db w) id = Some existing ->
      name_check_passes (db w) id existing v ->
      manager_check_passes (db w) v ->
      u_parentId v = Val newParentId ->
      let run := updateDepartment id data role w in
      let calls := issued (updateDepartment id data role) w in
      (List.find (active_department_filter newParentId) (departments (db w))
       = None ->
         result_of run
         = Thrown (ValidationError "Parent department not found or not active")
         /\ db (world_of run) = db w
         /\ forallb (fun q => negb (is_parent_lookup q)) calls = true
         /\ forallb (fun q => negb (is_write q)) calls = true)
      /\
      (List.find (active_department_filter newParentId) (departments (db w))
       <> None ->
       result_of (checkCircularReference id newParentId w) = Returned true ->
         result_of run
         = Thrown (ValidationError
                     "Cannot create circular parent-child relationship")
         /\ db (world_of run) = db w
         /\ forallb (fun q => negb (is_write q)) calls = true))
  /\
  (forall (w : World) (id : string) (data : DepartmentInput) (role : string),
      in_parentId data = Undefined \/ in_parentId data = Null ->
      forallb (fun q => negb (is_parent_validation q)
                        && negb (is_parent_lookup q))
              (issued (updateDepartment id data role) w) = true).
Proof.
  split.
  - intros w id data role v existing pid Hw Hid Hrole Hv Hfind Hname Hmgr Hp
      run calls.
    destruct (updateDepartment_upto_parent w id data role v existing)
      as (w1 & Hw1 & Hdb1 & Hlog1 & Hrun); try done.
    assert (Hpid : String.eqb pid "" = false).
    { apply String.eqb_neq, is_uuid_nonempty.
      eapply updateDepartmentSchema_parent_uuid; eauto. }
    subst run calls. unfold issued. rewrite Hrun, Hp. clear Hrun.
    set (w2 := tick (QFindFirstActive pid) w1).
    assert (Hlog2 : logged (fun q => negb (is_parent_lookup q)
                                     && negb (is_write q)) w w2).
    { etrans; [|by apply (logged_tick _ (QFindFirstActive pid))].
      eapply logged_weaken; [|exact Hlog1].
      intros q. unfold quiet. destruct q; done. }
    split.
    + intros Hnone.
      assert (E : try_catch
                    (validate_parent_and_cycle id (Val pid) ;;
                     department_update id (build_updateData v))
                    (fun error =>
                       match error with
                       | NotFoundError _ | ValidationError _ => throw error
                       | _ => throw (PlainError "Failed to update department")
                       end) w1
                  = (Thrown (ValidationError
                               "Parent department not found or not active"),
                     w2)).
      { unfold try_catch, bind at 1, validate_parent_and_cycle. simpl.
        rewrite Hpid. simpl.
        unfold bind at 1, bind at 1, department_findFirst_active.
        by rewrite client_read_reliable, Hdb1, Hnone by done. }
      rewrite E. unfold result_of, world_of. cbn [fst snd].
      split; [done|]. split; [by rewrite <- Hdb1|].
      destruct Hlog2 as (l & -> & Hl). rewrite drop_app_length.
      rewrite forallb_forall in Hl.
      split; apply forallb_forall; intros q Hq; specialize (Hl q Hq);
        by apply andb_true_iff in Hl as [? ?].
    + intros Hfound Hcycle.
      assert (Hw2 : reliable w2) by (by apply reliable_tick).
      rewrite (checkCircularReference_reliable_result id pid w w2) in Hcycle
        by (done || by rewrite <- Hdb1).
      pose proof (steps_checkCircularReference_same_db id pid w2) as Hdb3.
      pose proof (steps_checkCircularReference_logged
                    (fun q => negb (is_write q)) id pid
                    (fun _ => eq_refl) w2) as Hlog3.
      destruct (checkCircularReference id pid w2) as [r w3] eqn:Ewalk.
      simpl in Hcycle, Hdb3, Hlog3. subst r.
      assert (E : try_catch
                    (validate_parent_and_cycle id (Val pid) ;;
                     department_update id (build_updateData v))
                    (fun error =>
                       match error with
                       | NotFoundError _ | ValidationError _ => throw error
                       | _ => throw (PlainError "Failed to update department")
                       end) w1
                  = (Thrown (ValidationError
                               "Cannot create circular parent-child relationship"),
                     w3)).
      { unfold try_catch, bind at 1, validate_parent_and_cycle. simpl.
        rewrite Hpid. simpl.
        unfold bind at 1, bind at 1, department_findFirst_active.
        rewrite client_read_reliable, Hdb1 by done.
        destruct (List.find _ (departments (db w))); [|done]. simpl.
        unfold bind at 1. fold w2. by rewrite Ewalk. }
      rewrite E. unfold result_of, world_of. cbn [fst snd].
      split; [done|]. split; [by rewrite Hdb3, <- Hdb1|].
      assert (Hlog : logged (fun q => negb (is_write q)) w w3).
      { etrans; [|exact Hlog3]. eapply logged_weaken; [|exact Hlog2].
        intros q Hq. by apply andb_true_iff in Hq as [_ ?]. }
      destruct Hlog as (l & -> & Hl). by rewrite drop_app_length.
  - intros w id data role Hin. apply issued_logged.
    revert w. change (steps (logged (fun q => negb (is_parent_validation q)
                                              && negb (is_parent_lookup q)))
                            (updateDepartment id data role)).
    unfold updateDepartment.
    apply steps_bind; [apply _|steps_tac|intros _].
    apply steps_bind; [apply _|unfold checkAuthorization; steps_tac|intros _].
    apply steps_bind_parse; [apply _|]. intros v Hv.
    apply updateDepartmentSchema_parentId in Hv.
    assert (Hquiet : validate_parent_and_cycle id (u_parentId v) = ret tt).
    { destruct Hin as [E|E]; rewrite E in Hv; by rewrite Hv. }
    rewrite Hquiet.
    unfold department_findUnique, check_name_conflict, validate_manager,
      department_findFirst_name, employee_findFirst_active.
    steps_tac. by apply steps_department_update_logged.
Qed.

Lemma find_department_update_rows d i data r :
  find_department d i = Some r ->
  List.find (fun x => String.eqb (d_id x) i)
            (update_rows i data (departments d))
  = Some (apply_update data r).
Proof.
  unfold find_department, update_rows.
  induction (departments d) as [|x rows IH]; [done|].
  simpl. destruct (String.eqb (d_id x) i) eqn:E; simpl.
  - rewrite E. by intros [= ->].
  - rewrite E. auto.
Qed.

Lemma updateDepartmentSchema_isActive data v b :
  updateDepartmentSchema data = Valid v -> in_isActive data = Val b ->
  u_isActive v = Some b.
Proof.
  unfold updateDepartmentSchema. intros Hv E. rewrite E in Hv. simpl in Hv.
  destruct (optional name_schema (in_name data)) as [n|];
  destruct (uuid_schema "managerId" _ (in_managerId data)) as [m|];
  destruct (uuid_schema "parentId" _ (in_parentId data)) as [p|];
  destruct (optional description_schema (in_description data)) as [d|];
  try discriminate.
  by injection Hv as <-.
Qed.

(** Claim C10.  The update applies [isActive] with no dependency guard and
    without clearing the manager.  For every existing department, whatever
    employees, children and positions refer to it, the update with the
    payload [{ isActive: false }] by an authorized caller returns the row
    with [isActive = false] and the manager, and every other column, as
    before, after one lookup and one write; the soft delete of the same
    department is refused as soon as it has an active employee.  More
    generally every update with [isActive: false] that returns has
    deactivated the department, and has left the manager alone unless
    [managerId] was in the payload. *)
Theorem updateDepartment_deactivation_unguarded :
  (forall (w : World) (id role : string) (existing : Department),
      reliable w -> id <> "" -> In role ["ADMIN"; "HR"] ->
      find_department (db w) id = Some existing ->
      let data := mkDepartmentInput Undefined Undefined Undefined (Val false)
                                    Undefined in
      let run := updateDepartment id data role w in
      let d' := mkDepartment (d_id existing) (d_name existing)
                             (d_description existing) false
                             (d_managerId existing) (d_parentId existing) in
      result_of run = Returned d'
      /\ find_department (db (world_of run)) id = Some d'
      /\ employees (db (world_of run)) = employees (db w)
      /\ positions (db (world_of run)) = positions (db w)
      /\ issued (updateDepartment id data role) w
         = [QFindUnique id;
            QUpdate id (mkUpdateData None None None (Some false) None)]
      /\ (d_isActive existing = true ->
          1 <= length (active_employees (db w) id) ->
          exists message,
            result_of (deleteDepartment id role w)
            = Thrown (ValidationError message)))
  /\
  (forall (w : World) (id : string) (data : DepartmentInput) (role : string)
          (d' : Department) (w' : World),
      in_isActive data = Val false ->
      updateDepartment id data role w = (Returned d', w') ->
      d_isActive d' = false
      /\ employees (db w') = employees (db w)
      /\ positions (db w') = positions (db w)
      /\ (in_managerId data = Undefined ->
          exists existing,
            find_department (db w) id = Some existing
            /\ d_managerId d' = d_managerId existing)).
Proof.
  split.
  - intros w id role existing Hw Hid Hrole Hfind data run d'.
    assert (E : updateDepartment id data role w =
                (Returned d',
                 mkWorld (mkDb (update_rows id
                                  (mkUpdateData None None None (Some false) None)
                                  (departments (db w)))
                               (employees (db w)) (positions (db w)))
                         (tail (tail (faults w))) (fresh_ids w) (order_rows w)
                         (log w ++ [QFindUnique id;
                                    QUpdate id (mkUpdateData None None None
                                                  (Some false) None)]))).
    { unfold updateDepartment. apply String.eqb_neq in Hid.
      unfold bind at 1. rewrite Hid. simpl.
      unfold bind at 1. rewrite checkAuthorization_member by done.
      unfold bind at 1, parse. simpl.
      unfold try_catch, bind at 1, department_findUnique.
      rewrite client_read_reliable, Hfind by done. simpl.
      unfold bind, department_update. simpl.
      rewrite client_call_reliable by (by apply reliable_tick).
      simpl. rewrite Hfind. simpl. by rewrite <- app_assoc. }
    subst run. unfold issued. rewrite E. unfold result_of, world_of.
    cbn [fst snd db log employees positions].
    split; [done|]. split.
    { unfold find_department at 1. cbn [departments].
      by rewrite (find_department_update_rows _ _ _ existing). }
    split; [done|]. split; [done|]. split; [by rewrite drop_app_length|].
    intros Hact Hn.
    rewrite (deleteDepartment_run w id role existing) by done.
    destruct (length (active_employees (db w) id)); [lia|]. simpl. eauto.
  - intros w id data role d' w' Hin H.
    apply updateDepartment_returned in H
      as (v & existing & Hv & Hfind & -> & Hdb & _ & _ & _ & Hmgr & _).
    rewrite Hdb. simpl.
    rewrite (updateDepartmentSchema_isActive data v false Hv Hin). simpl.
    repeat split. intros E. exists existing. split; [done|]. by apply Hmgr.
Qed.

(** *** Creation *)

Lemma departmentSchema_name data v :
  departmentSchema data = Valid v ->
  exists s, in_name data = Val s /\ v_name v = trim s
            /\ 1 <= String.length s <= 100.
Proof.
  unfold departmentSchema.
  destruct (name_schema (in_name data)) as [n|] eqn:En;
  destruct (uuid_schema "managerId" _ (in_managerId data)) as [m|];
  destruct (uuid_schema "parentId" _ (in_parentId data)) as [p|];
  destruct (isActive_schema (in_isActive data)) as [a|];
  destruct (description_schema (in_description data)) as [d|];
  try discriminate.
  intros [= <-]. simpl. unfold name_schema in En.
  destruct (in_name data) as [| |s]; try discriminate.
  exists s. split; [done|].
  destruct (Nat.ltb_spec (String.length s) 1); [discriminate|].
  destruct (Nat.ltb_spec 100 (String.length s)); [discriminate|].
  injection En as <-. split; [done|lia].
Qed.

Lemma find_name_taken rows n :
  (exists r, In r rows /\ equals_insensitive (d_name r) n = true) ->
  exists r, List.find (name_filter n None) rows = Some r.
Proof.
  intros (r & Hr & E).
  destruct (List.find (name_filter n None) rows) as [r'|] eqn:F; [eauto|].
  eapply find_none in F; [|exact Hr].
  unfold name_filter in F. by rewrite E in F.
Qed.

Lemma find_name_free rows n :
  (forall r, In r rows -> equals_insensitive (d_name r) n = false) ->
  List.find (name_filter n None) rows = None.
Proof.
  intros H. destruct (List.find (name_filter n None) rows) as [r|] eqn:F;
    [|done].
  apply find_some in F as [Hr F]. unfold name_filter in F.
  by rewrite (H r Hr) in F.
Qed.

Lemma department_create_thrown data w e w' :
  department_create data w = (Thrown e, w') -> e = ClientError.
Proof.
  unfold department_create, client_call.
  destruct (faults w) as [|[|] fs]; simpl;
    repeat (case_match; simpl); congruence.
Qed.

Ltac create_outcome :=
  match goal with
  | |- context [department_create ?data ?w] =>
      let E := fresh "E" in
      destruct (department_create data w) as [[?|?] ?] eqn:E;
      [|apply department_create_thrown in E as ->]; discriminate
  end.

(** Claim C6.  For a create call by an authorized caller with a valid
    payload, in a reliable world: the validated name is the trimmed name of
    the payload; if it equals, case-insensitively, the name of any stored
    department, active or not, the call throws the validation error
    "Department name already exists" after its first lookup and stores
    nothing; if it differs from every stored name the call does not throw
    that error, and, when no manager and no parent are given and the store
    can name the row, it returns and stores the new department. *)
Theorem createDepartment_name_uniqueness
  (w : World) (data : DepartmentInput) (role : string) (v : DepartmentData) :
  reliable w -> In role ["ADMIN"; "HR"] ->
  departmentSchema data = Valid v ->
  let run := createDepartment data role w in
  (exists s, in_name data = Val s /\ v_name v = trim s)
  /\
  ((exists r, In r (departments (db w))
              /\ equals_insensitive (d_name r) (v_name v) = true) ->
     result_of run = Thrown (ValidationError "Department name already exists")
     /\ db (world_of run) = db w
     /\ issued (createDepartment data role) w
        = [QFindFirstByName (v_name v) None])
  /\
  ((forall r, In r (departments (db w)) ->
              equals_insensitive (d_name r) (v_name v) = false) ->
     result_of run <> Thrown (ValidationError "Department name already exists")
     /\ (truthy (v_managerId v) = false -> truthy (v_parentId v) = false ->
         forall i rest,
           fresh_ids w = i :: rest -> find_department (db w) i = None ->
           let row := mkDepartment i (v_name v) (v_description v)
                                   (v_isActive v)
                                   (nullable (v_managerId v))
                                   (nullable (v_parentId v)) in
           result_of run = Returned row
           /\ departments (db (world_of run)) = departments (db w) ++ [row])).
Proof.
  intros Hw Hrole Hv run.
  split.
  { destruct (departmentSchema_name data v Hv) as (s & E1 & E2 & _). eauto. }
  assert (Hrun : run =
    try_catch
      ((if List.find (name_filter (v_name v) None) (departments (db w))
           is Some _
        then throw (ValidationError "Department name already exists")
        else ret tt) ;;
       validate_manager (v_managerId v) ;;
       validate_parent (v_parentId v) ;;
       department_create
         (mkCreateData (v_name v) (v_managerId v) (v_parentId v)
                       (v_description v) (v_isActive v)))
      (fun error =>
         match error with
         | ValidationError _ => throw error
         | _ => throw (PlainError "Failed to create department")
         end) (tick (QFindFirstByName (v_name v) None) w)).
  { subst run. unfold createDepartment.
    unfold bind at 1. rewrite checkAuthorization_member by done.
    unfold bind at 1, parse. rewrite Hv. simpl.
    unfold try_catch, bind at 1, department_findFirst_name.
    by rewrite client_read_reliable by done. }
  set (w1 := tick (QFindFirstByName (v_name v) None) w) in *.
  assert (Hw1 : reliable w1) by (by apply reliable_tick).
  split.
  - intros Htaken. apply find_name_taken in Htaken as [r Hr].
    unfold issued. subst run. rewrite Hrun.
    unfold try_catch, bind at 1. rewrite Hr. simpl.
    repeat split. by rewrite drop_app_length.
  - intros Hfree. apply find_name_free in Hfree.
    rewrite Hrun, Hfree. clear Hrun. split.
    + unfold try_catch, bind at 1. simpl.
      unfold bind at 1, validate_manager.
      destruct (truthy (v_managerId v)).
      * unfold bind at 1, employee_findFirst_active.
        rewrite client_read_reliable by done.
        destruct (List.find _ (employees (db w1))); simpl; [|discriminate].
        unfold bind at 1, validate_parent.
        destruct (truthy (v_parentId v)).
        -- unfold bind at 1, department_findFirst_active.
           rewrite client_read_reliable by (by apply reliable_tick).
           simpl. destruct (List.find (active_department_filter _) _); simpl;
             [|discriminate].
           create_outcome.
        -- simpl. create_outcome.
      * simpl. unfold bind at 1, validate_parent.
        destruct (truthy (v_parentId v)).
        -- unfold bind at 1, department_findFirst_active.
           rewrite client_read_reliable by done.
           simpl. destruct (List.find (active_department_filter _) _); simpl;
             [|discriminate].
           create_outcome.
        -- simpl. create_outcome.
    + intros Hm Hp i rest Hfresh Hnew row.
      match goal with
      | |- context [try_catch ?body ?handler w1] =>
          assert (E : try_catch body handler w1
                      = (Returned row,
                         mkWorld (mkDb (departments (db w) ++ [row])
                                       (employees (db w)) (positions (db w)))
                                 (tail (tail (faults w))) rest (order_rows w)
                                 (log w1 ++ [QCreate
                                    (mkCreateData (v_name v) (v_managerId v)
                                       (v_parentId v) (v_description v)
                                       (v_isActive v))])))
      end.
      { unfold try_catch, bind at 1. simpl.
        unfold bind at 1, validate_manager. rewrite Hm. simpl.
        unfold bind at 1, validate_parent. rewrite Hp. simpl.
        unfold department_create. rewrite client_call_reliable by done.
        simpl. by rewrite Hfresh, Hnew. }
      by rewrite E.
Qed.
Lemma Math_ceil_div_bounds (t l : Z) :
  (1 <= l)%Z ->
  (l * (Math_ceil_div t l - 1) < t <= l * Math_ceil_div t l)%Z.
Proof.
  intros Hl. unfold Math_ceil_div.
  set (q := (inject_Z t / inject_Z l)%Q).
  assert (Hpos : (0 < inject_Z l)%Q).
  { change 0%Q with (inject_Z 0). rewrite <- Zlt_Qlt. lia. }
  assert (Hq : (q * inject_Z l == inject_Z t)%Q).
  { unfold q. field. intros E. rewrite E in Hpos. by apply Qlt_irrefl in Hpos. }
  split.
  - pose proof (Qceiling_lt q) as H.
    apply (Qmult_lt_r _ _ _ Hpos) in H.
    rewrite Hq, <- inject_Z_mult, <- Zlt_Qlt in H. lia.
  - pose proof (Qle_ceiling q) as H.
    apply (Qmult_le_r _ _ _ Hpos) in H.
    rewrite Hq, <- inject_Z_mult, <- Zle_Qle in H. lia.
Qed.

(** *** Listing *)

Lemma getDepartmentsSchema_cases params :
  (exists v,
      getDepartmentsSchema params = Valid v
      /\ userRole_schema (in_userRole params) = Valid (l_userRole v)
      /\ page_schema (in_page params) = Valid (l_page v)
      /\ limit_schema (in_limit params) = Valid (l_limit v)
      /\ active_schema (in_active params) = Valid (l_isActive v)
      /\ uuid_schema "parentId" "Invalid parent department ID"
                     (in_parent params) = Valid (l_parentId v)
      /\ search_schema (in_search params) = Valid (l_search v)
      /\ sortBy_schema (in_sortBy params) = Valid (l_sortBy v)
      /\ sortOrder_schema (in_sortOrder params) = Valid (l_sortOrder v))
  \/ getDepartmentsSchema params = Invalid (all_issues params).
Proof.
  unfold getDepartmentsSchema, all_issues.
  destruct (userRole_schema (in_userRole params)); [|by right].
  destruct (page_schema (in_page params)); [|by right].
  destruct (limit_schema (in_limit params)); [|by right].
  destruct (active_schema (in_active params)); [|by right].
  destruct (uuid_schema "parentId" _ (in_parent params)); [|by right].
  destruct (search_schema (in_search params)); [|by right].
  destruct (sortBy_schema (in_sortBy params)); [|by right].
  destruct (sortOrder_schema (in_sortOrder params)); [|by right].
  left. eexists. by repeat split.
Qed.

Lemma getDepartments_rejected params w :
  getDepartmentsSchema params = Invalid (all_issues params) ->
  getDepartments params w = (Thrown (ZodError (all_issues params)), w).
Proof. intros E. unfold getDepartments, bind at 1, parse. by rewrite E. Qed.

Lemma promise_all_returned {A B} (a : M A) (b : M B) w x y w' :
  promise_all a b w = (Returned (x, y), w') ->
  exists w1, a w = (Returned x, w1) /\ b w1 = (Returned y, w').
Proof.
  unfold promise_all. destruct (a w) as [[x'|e] w1] eqn:Ea;
    destruct (b w1) as [[y'|e'] w2] eqn:Eb; simpl; try discriminate.
  intros [= <- <- <-]. by exists w1.
Qed.

Lemma getDepartments_returned params w r w' :
  getDepartments params w = (Returned r, w') ->
  exists v,
    getDepartmentsSchema params = Valid v
    /\ existsb (String.eqb (l_userRole v)) ["ADMIN"; "HR"; "MANAGER"] = true
    /\ let wh := build_where (l_isActive v) (l_parentId v) (l_search v) in
       let skip := ((l_page v - 1) * l_limit v)%Z in
       let total :=
         Z.of_nat (length (List.filter (matches wh) (departments (db w)))) in
       r = mkDepartmentPage
             (firstn (Z.to_nat (l_limit v))
                (skipn (Z.to_nat skip)
                   (order_rows w (l_sortBy v) (l_sortOrder v)
                      (List.filter (matches wh) (departments (db w))))))
             (mkPagination (l_page v) (l_limit v) total
                (Math_ceil_div total (l_limit v))
                (l_page v <? Math_ceil_div total (l_limit v))%Z
                (l_page v >? 1)%Z)
       /\ log w' = log w ++ [QFindMany wh skip (l_limit v) (l_sortBy v)
                                       (l_sortOrder v);
                             QCount wh]
       /\ db w' = db w.
Proof.
  intros H. unfold getDepartments in H.
  apply bind_returned in H as (v & w0 & H0 & H).
  apply parse_returned in H0 as [Hv ->].
  apply bind_returned in H as (u & w1 & H1 & H).
  apply checkAuthorization_returned in H1 as [Hrole ->].
  apply try_catch_returned in H; [|intros e w0; unfold throw; eauto].
  apply bind_returned in H as ([rows total] & w2 & H2 & H).
  apply promise_all_returned in H2 as (w3 & Hrows & Htotal).
  apply client_call_returned in Hrows. apply client_read_returned in Htotal.
  injection Hrows as <- <-. destruct Htotal as [-> ->].
  injection H as <- <-.
  exists v. split; [done|]. split; [done|]. simpl.
  split; [done|]. split; [|done]. by rewrite <- app_assoc.
Qed.

Lemma page_schema_valid x n :
  page_schema x = Valid n ->
  (1 <= n)%Z /\ match x with
                | Val m => n = m
                | Undefined => n = 1%Z
                | Null => False
                end.
Proof.
  unfold page_schema. destruct x as [| |m]; try by intros [= <-].
  destruct (Z.ltb_spec m 1); [done|]. by intros [= <-].
Qed.

Lemma limit_schema_valid x n :
  limit_schema x = Valid n ->
  (1 <= n <= 100)%Z /\ match x with
                       | Val m => n = m
                       | Undefined => n = 10%Z
                       | Null => False
                       end.
Proof.
  unfold limit_schema. destruct x as [| |m]; try by intros [= <-].
  destruct (Z.ltb_spec m 1); [done|].
  destruct (Z.ltb_spec 100 m); [done|]. intros [= <-]. split; [lia|done].
Qed.

Lemma limit_schema_out_of_range n :
  (n < 1)%Z \/ (100 < n)%Z ->
  limit_schema (Val n)
  = Invalid [issue "limit" (if (n <? 1)%Z then "Limit must be at least 1"
                            else "Limit cannot exceed 100")].
Proof.
  unfold limit_schema. intros H.
  destruct (Z.ltb_spec n 1); [done|].
  destruct (Z.ltb_spec 100 n); [done|lia].
Qed.

Lemma getDepartmentsSchema_invalid params :
  (exists l, limit_schema (in_limit params) = Invalid l)
  \/ (exists l, sortBy_schema (in_sortBy params) = Invalid l) ->
  getDepartmentsSchema params = Invalid (all_issues params).
Proof.
  intros H. destruct (getDepartmentsSchema_cases params)
    as [(v & _ & _ & _ & El & _ & _ & _ & Es & _)|E]; [|done].
  destruct H as [[l E]|[l E]]; congruence.
Qed.

(** Claim C8, as amended.  For every list call that returns, with total
    count [T], the limit [L] is in [[1, 100]] and is the one supplied (10
    when none is), the page [P] is at least 1, and the pagination object
    has [pages = ceil (T / L)], that is [L * (pages - 1) < T <= L * pages],
    [hasNext = (P < pages)] and [hasPrev = (P > 1)].  A supplied limit
    outside [[1, 100]] is not clamped: the call throws the schema error
    with the message of the bound that is broken, and issues no query. *)
Theorem getDepartments_pagination :
  (forall (w : World) (params : ListInput) (r : DepartmentPage) (w' : World),
      getDepartments params w = (Returned r, w') ->
      let pg := page_pagination r in
      (1 <= pg_limit pg <= 100)%Z
      /\ (1 <= pg_page pg)%Z
      /\ match in_limit params with
         | Val n => pg_limit pg = n
         | Undefined => pg_limit pg = 10%Z
         | Null => False
         end
      /\ match in_page params with
         | Val n => pg_page pg = n
         | Undefined => pg_page pg = 1%Z
         | Null => False
         end
      /\ (exists wh k o,
            pg_total pg
            = Z.of_nat (length (List.filter (matches wh) (departments (db w))))
            /\ issued (getDepartments params) w
               = [QFindMany wh ((pg_page pg - 1) * pg_limit pg)%Z (pg_limit pg)
                            k o;
                  QCount wh])
      /\ pg_pages pg = Math_ceil_div (pg_total pg) (pg_limit pg)
      /\ (pg_limit pg * (pg_pages pg - 1) < pg_total pg
          <= pg_limit pg * pg_pages pg)%Z
      /\ pg_hasNext pg = (pg_page pg <? pg_pages pg)%Z
      /\ pg_hasPrev pg = (pg_page pg >? 1)%Z)
  /\
  (forall (w : World) (params : ListInput) (n : Z),
      in_limit params = Val n -> (n < 1)%Z \/ (100 < n)%Z ->
      exists issues,
        getDepartments params w = (Thrown (ZodError issues), w)
        /\ In (issue "limit" (if (n <? 1)%Z then "Limit must be at least 1"
                              else "Limit cannot exceed 100")) issues).
Proof.
  split.
  - intros w params r w' H pg. unfold issued. rewrite H.
    apply getDepartments_returned in H as (v & Hv & _ & Hr & Hlog & _).
    destruct (getDepartmentsSchema_cases params)
      as [(v' & Hv' & _ & Hp & Hl & _)|E]; [|congruence].
    assert (v' = v) as -> by congruence.
    apply page_schema_valid in Hp as [Hp1 Hp2].
    apply limit_schema_valid in Hl as [Hl1 Hl2].
    subst pg. rewrite Hr. simpl.
    repeat split; try lia; try done.
    + eexists _, _, _. split; [reflexivity|].
      unfold world_of. simpl. by rewrite Hlog, drop_app_length.
    + apply Math_ceil_div_bounds. lia.
    + apply Math_ceil_div_bounds. lia.
  - intros w params n Hn Hrange. exists (all_issues params). split.
    + apply getDepartments_rejected, getDepartmentsSchema_invalid. left.
      rewrite Hn, limit_schema_out_of_range by done. eauto.
    + unfold all_issues. rewrite Hn, limit_schema_out_of_range by done.
      rewrite !in_app_iff. right. right. left. by left.
Qed.

Lemma sortBy_schema_unknown s :
  s <> "name" -> s <> "createdAt" -> s <> "updatedAt" ->
  sortBy_schema (Val s) = Invalid [invalid_enum_value "sortBy"].
Proof.
  intros H1 H2 H3. unfold sortBy_schema.
  apply String.eqb_neq in H1, H2, H3. by rewrite H1, H2, H3.
Qed.

(** Claim C9, as amended.  A list call whose [sortBy] is a value other than
    [name], [createdAt] and [updatedAt] throws the schema error and issues
    no query.  The default applies when [sortBy] is missing: the rows are
    then ordered by name, in ascending order when [sortOrder] is missing
    too, and for an authorized caller in a reliable world the call returns
    a normal result. *)
Theorem getDepartments_sort_key :
  (forall (w : World) (params : ListInput) (s : string),
      in_sortBy params = Val s ->
      s <> "name" -> s <> "createdAt" -> s <> "updatedAt" ->
      exists issues,
        getDepartments params w = (Thrown (ZodError issues), w)
        /\ In (invalid_enum_value "sortBy") issues)
  /\
  (forall (w : World) (params : ListInput) (v : ListParams),
      in_sortBy params = Undefined ->
      getDepartmentsSchema params = Valid v ->
      l_sortBy v = by_name
      /\ (in_sortOrder params = Undefined -> l_sortOrder v = asc)
      /\ (reliable w ->
          In (l_userRole v) ["ADMIN"; "HR"; "MANAGER"] ->
          exists r wh skip,
            result_of (getDepartments params w) = Returned r
            /\ page_departments r
               = firstn (Z.to_nat (l_limit v))
                   (skipn (Z.to_nat skip)
                      (order_rows w by_name (l_sortOrder v)
                         (List.filter (matches wh) (departments (db w)))))
            /\ issued (getDepartments params) w
               = [QFindMany wh skip (l_limit v) by_name (l_sortOrder v);
                  QCount wh])).
Proof.
  split.
  - intros w params s Hs H1 H2 H3. exists (all_issues params). split.
    + apply getDepartments_rejected, getDepartmentsSchema_invalid. right.
      rewrite Hs, sortBy_schema_unknown by done. eauto.
    + unfold all_issues. rewrite Hs, sortBy_schema_unknown by done.
      rewrite !in_app_iff. do 6 right. left. by left.
  - intros w params v Hs Hv.
    destruct (getDepartmentsSchema_cases params)
      as [(v' & Hv' & _ & _ & _ & _ & _ & _ & Hk & Ho)|E]; [|congruence].
    assert (v' = v) as -> by congruence.
    rewrite Hs in Hk. simpl in Hk. injection Hk as Hk.
    split; [done|]. split.
    { intros E. rewrite E in Ho. simpl in Ho. by injection Ho as <-. }
    intros Hw Hrole.
    set (wh := build_where (l_isActive v) (l_parentId v) (l_search v)).
    set (skip := ((l_page v - 1) * l_limit v)%Z).
    assert (E : getDepartments params w =
                (Returned
                   (mkDepartmentPage
                      (firstn (Z.to_nat (l_limit v))
                         (skipn (Z.to_nat skip)
                            (order_rows w by_name (l_sortOrder v)
                               (List.filter (matches wh)
                                            (departments (db w))))))
                      (let total :=
                         Z.of_nat (length (List.filter (matches wh)
                                                       (departments (db w)))) in
                       mkPagination (l_page v) (l_limit v) total
                         (Math_ceil_div total (l_limit v))
                         (l_page v <? Math_ceil_div total (l_limit v))%Z
                         (l_page v >? 1)%Z)),
                 tick (QCount wh)
                      (tick (QFindMany wh skip (l_limit v) by_name
                                       (l_sortOrder v)) w))).
    { unfold getDepartments. unfold bind at 1, parse. rewrite Hv. simpl.
      unfold bind at 1. rewrite checkAuthorization_member by done.
      unfold try_catch, bind at 1, promise_all, department_findMany,
        department_count.
      rewrite client_call_reliable by done.
      rewrite client_read_reliable by (by apply reliable_tick).
      rewrite <- Hk. reflexivity. }
    eexists _, wh, skip. unfold issued. rewrite E.
    unfold result_of, world_of. cbn [fst snd page_departments].
    split; [done|]. split; [done|]. simpl.
    by rewrite <- app_assoc, drop_app_length.
Qed.

(** The route, unlike the service, never rejects a limit or a sort key. *)
Lemma route_limit_clamped (val : field string) :
  exists n, route_limit_schema val = Valid n /\ (1 <= n <= 100)%Z.
Proof.
  unfold route_limit_schema.
  set (n := route_limit_preprocess val).
  assert (Hn : (1 <= n <= 100)%Z).
  { subst n. unfold route_limit_preprocess. destruct val as [| |s]; try lia.
    destruct (negb _); [|lia]. destruct (parseInt10 s); lia. }
  exists n. split; [|done]. unfold limit_schema.
  destruct (Z.ltb_spec n 1); [lia|]. destruct (Z.ltb_spec 100 n); [lia|done].
Qed.

Lemma route_sortBy_falls_back (x : field string) :
  exists k, route_sortBy_schema x = Valid k
            /\ (forall l, sortBy_schema x = Invalid l -> k = by_name).
Proof.
  unfold route_sortBy_schema. destruct (sortBy_schema x) as [k|l].
  - exists k. split; [done|]. discriminate.
  - exists by_name. split; [done|]. done.
Qed.

Lemma route_sortOrder_falls_back (x : field string) :
  exists o, route_sortOrder_schema x = Valid o
            /\ (forall l, sortOrder_schema x = Invalid l -> o = asc).
Proof.
  unfold route_sortOrder_schema. destruct (sortOrder_schema x) as [o|l].
  - exists o. split; [done|]. discriminate.
  - exists asc. split; [done|]. done.
Qed.

(* --------------------------------------------------------------------- *)
(** *** The service on the sample organisation *)

Import Fixture.

(** Engineering -> Platform -> Storage: Storage may not become the parent of
    Engineering, and may become the parent of Sales. *)
Lemma checkCircularReference_chain_witness :
  result_of (checkCircularReference engineering_id storage_id world)
  = Returned true
  /\ result_of (checkCircularReference sales_id storage_id world)
     = Returned false.
Proof.
  apply (checkCircularReference_chain world engineering_id platform_id
           storage_id sales_id); first [reflexivity | discriminate | constructor].
Defined.

(** In the deep hierarchy [node 0] is an ancestor of [node 1], 51 levels up:
    the walk stops after 50 nodes and reports no cycle. *)
Lemma checkCircularReference_fails_open_witness :
  result_of (checkCircularReference (node 0) (node 1) deep_world)
  = Returned false.
Proof.
  apply checkCircularReference_fails_open.
  - apply (bool_decide_unpack _). vm_compute. exact I.
  - left. vm_compute. reflexivity.
Defined.

(** Two levels higher the same ancestor is within reach. *)
Example deep_ancestor_found_within_bound :
  result_of (checkCircularReference (node 0) (node 3) deep_world)
  = Returned true.
Proof. vm_compute. reflexivity. Qed.

(** The cycle of the first example is missed when the second lookup fails. *)
Example rejected_lookup_hides_cycle :
  result_of (checkCircularReference engineering_id storage_id flaky_world)
  = Returned false.
Proof. vm_compute. reflexivity. Qed.

(** Making Storage the parent of Engineering is refused and nothing is
    written. *)
Lemma updateDepartment_parent_validation_witness :
  result_of (updateDepartment engineering_id (only_parent storage_id) "ADMIN"
                              world)
  = Thrown (ValidationError "Cannot create circular parent-child relationship")
  /\ db (world_of (updateDepartment engineering_id (only_parent storage_id)
                                    "ADMIN" world)) = tables.
Proof.
  pose proof (proj1 updateDepartment_parent_validation world engineering_id
                (only_parent storage_id) "ADMIN"
                (mkDepartmentPatch None Undefined (Val storage_id) None None)
                engineering storage_id
                ltac:(constructor) ltac:(discriminate) ltac:(left; reflexivity)
                eq_refl eq_refl I I eq_refl) as [_ H].
  destruct H as (H1 & H2 & _); [discriminate|reflexivity|].
  split; [exact H1|exact H2].
Defined.

(** Engineering has one active employee. *)
Lemma deleteDepartment_dependency_guard_witness :
  result_of (deleteDepartment engineering_id "HR" world)
  = Thrown (ValidationError
              "Cannot delete department with 1 active employee(s). Please reassign employees first.")
  /\ db (world_of (deleteDepartment engineering_id "HR" world)) = tables.
Proof.
  pose proof (deleteDepartment_dependency_guard world engineering_id "HR"
                engineering
                ltac:(constructor) ltac:(discriminate)
                ltac:(right; left; reflexivity) eq_refl eq_refl) as [H _].
  apply H. vm_compute. lia.
Defined.

(** Storage has no active dependent. *)
Example deleteDepartment_without_dependents :
  result_of (deleteDepartment storage_id "ADMIN" world)
  = Returned (mkDepartment storage_id "Storage" (Some "disks") false None
                           (Some platform_id)).
Proof. vm_compute. reflexivity. Qed.

(** The name is trimmed and compared without regard to case. *)
Lemma createDepartment_name_uniqueness_witness :
  result_of (createDepartment (only_name " ENGINEERING ") "HR" world)
  = Thrown (ValidationError "Department name already exists")
  /\ db (world_of (createDepartment (only_name " ENGINEERING ") "HR" world))
     = tables.
Proof.
  pose proof (createDepartment_name_uniqueness world
                (only_name " ENGINEERING ") "HR"
                (mkDepartmentData "ENGINEERING" Undefined Undefined true None)
                ltac:(constructor) ltac:(right; left; reflexivity) eq_refl)
    as (_ & H & _).
  destruct H as (H1 & H2 & _).
  - exists engineering. split; [left; reflexivity|reflexivity].
  - split; [exact H1|exact H2].
Defined.

(** Sales is inactive and still owns its name. *)
Example createDepartment_inactive_name_taken :
  result_of (createDepartment (only_name "sales") "ADMIN" world)
  = Thrown (ValidationError "Department name already exists").
Proof. vm_compute. reflexivity. Qed.

(** A name that only starts like a stored one is free. *)
Example createDepartment_distinct_name :
  result_of (createDepartment (only_name "Engineering2") "ADMIN" world)
  = Returned (mkDepartment "99999999-0000-4000-8000-000000000007"
                           "Engineering2" None true None None).
Proof. vm_compute. reflexivity. Qed.

(** Changing the description of Storage leaves its name, manager and parent
    alone. *)
Lemma updateDepartment_frame_witness :
  exists v existing,
    updateDepartmentSchema (only_description " spinning disks ") = Valid v
    /\ find_department tables storage_id = Some existing
    /\ mkDepartment storage_id "Storage" (Some "spinning disks") true None
                    (Some platform_id)
       = apply_update (build_updateData v) existing.
Proof.
  destruct (updateDepartment_frame world storage_id
              (only_description " spinning disks ") "ADMIN"
              (mkDepartment storage_id "Storage" (Some "spinning disks") true
                            None (Some platform_id))
              (world_of (updateDepartment storage_id
                           (only_description " spinning disks ") "ADMIN"
                           world))
              eq_refl)
    as (v & existing & Hv & Hfind & Hd & _).
  exists v, existing. split; [exact Hv|]. split; [exact Hfind|exact Hd].
Defined.

(** A limit of 500 is refused by the service, not cut down to 100. *)
Lemma getDepartments_limit_not_clamped :
  getDepartments (list_input Undefined (Val 500%Z) Undefined Undefined) world
  = (Thrown (ZodError [issue "limit" "Limit cannot exceed 100"]), world)
  /\ ~ (exists r,
          result_of (getDepartments
                       (list_input Undefined (Val 500%Z) Undefined Undefined)
                       world) = Returned r
          /\ pg_limit (page_pagination r) = 100%Z).
Proof.
  split; [reflexivity|]. intros (r & H & _). discriminate H.
Qed.

(** Page 2 of the four departments, two per page. *)
Lemma getDepartments_pagination_witness :
  let r := mkDepartmentPage [storage; sales]
             (mkPagination 2 2 4 2 false true) in
  getDepartments (list_input (Val 2%Z) (Val 2%Z) Undefined Undefined) world
  = (Returned r,
     world_of (getDepartments
                 (list_input (Val 2%Z) (Val 2%Z) Undefined Undefined) world))
  /\ (pg_limit (page_pagination r) * (pg_pages (page_pagination r) - 1)
      < pg_total (page_pagination r)
      <= pg_limit (page_pagination r) * pg_pages (page_pagination r))%Z.
Proof.
  intros r. split; [reflexivity|].
  pose proof (proj1 getDepartments_pagination world
                (list_input (Val 2%Z) (Val 2%Z) Undefined Undefined) r
                (world_of (getDepartments
                             (list_input (Val 2%Z) (Val 2%Z) Undefined
                                         Undefined) world))
                eq_refl) as (_ & _ & _ & _ & _ & _ & H & _).
  exact H.
Defined.

(** An unknown sort key is refused by the service, not replaced by
    [name]. *)
Lemma getDepartments_unknown_sort_key_rejected :
  getDepartments (list_input Undefined Undefined (Val "salary") Undefined)
                 world
  = (Thrown (ZodError [invalid_enum_value "sortBy"]), world)
  /\ ~ (exists r,
          result_of (getDepartments
                       (list_input Undefined Undefined (Val "salary")
                                   Undefined) world) = Returned r).
Proof.
  split; [reflexivity|]. intros (r & H). discriminate H.
Qed.

(** The same call, through the theorem. *)
Lemma getDepartments_sort_key_witness :
  exists issues,
    getDepartments (list_input Undefined Undefined (Val "salary") Undefined)
                   world
    = (Thrown (ZodError issues), world)
    /\ In (invalid_enum_value "sortBy") issues.
Proof.
  apply (proj1 getDepartments_sort_key world
           (list_input Undefined Undefined (Val "salary") Undefined)
           "salary" eq_refl);
    discriminate.
Defined.

(** Engineering is deactivated by an update although an employee, a child
    and a position still refer to it, and it keeps its manager. *)
Lemma updateDepartment_deactivation_unguarded_witness :
  result_of (updateDepartment engineering_id
               (mkDepartmentInput Undefined Undefined Undefined (Val false)
                                  Undefined) "ADMIN" world)
  = Returned (mkDepartment engineering_id "Engineering" None false
                           (Some ada_id) None)
  /\ length (active_employees tables engineering_id) = 1
  /\ length (active_children tables engineering_id) = 1
  /\ length (active_positions tables engineering_id) = 1.
Proof.
  pose proof (proj1 updateDepartment_deactivation_unguarded world
                engineering_id "ADMIN" engineering
                ltac:(constructor) ltac:(discriminate)
                ltac:(left; reflexivity) eq_refl) as (H & _).
  split; [exact H|]. repeat split.
Defined.

(** The same inputs through the schema of the route. *)
Example route_limit_500 : route_limit_schema (Val "500") = Valid 100%Z.
Proof. reflexivity. Qed.

Example route_limit_blank : route_limit_schema (Val "  ") = Valid 10%Z.
Proof. reflexivity. Qed.

Example route_limit_negative : route_limit_schema (Val " -3") = Valid 1%Z.
Proof. reflexivity. Qed.

Example route_sortBy_salary : route_sortBy_schema (Val "salary") = Valid by_name.
Proof. reflexivity. Qed.
